(** * u-blox AT helpers and the MBIM modem's first steps

    A shallow embedding of [plugins/ublox/mm-modem-helpers-ublox.c] and of the
    initialization and enabling steps of [mm-broadband-modem-mbim.c].

    Conventions of the embedding:
    - a [guint] and a [MMModemMode] flag mask are binary naturals ([N]); the
      only arithmetic the code does on them is comparison, [&], [|] and [~];
    - a response is ASCII text without NUL, as the AT port hands it over;
    - a function that returns a [gboolean] and reports through [GError **]
      and out pointers returns a record holding all three;
    - [goto out] is a call of a local continuation that receives the locals
      the label reads. *)

From stdpp Require Import base strings gmap list pretty.
From Stdlib Require Import NArith Ascii String Lia.

Local Open Scope string_scope.
Local Open Scope N_scope.
Local Open Scope list_scope.

(** ** GLib base types *)

Definition guint : Type := N.

(** Error domains ([GQuark]); only the core domain is named in these files *)
Inductive GQuark : Type :=
| MM_CORE_ERROR
| G_OTHER_ERROR_DOMAIN (quark : N).

(** [MMCoreError] of [mm-errors-types.h], in declaration order. *)
Inductive MMCoreError : Type :=
| MM_CORE_ERROR_FAILED
| MM_CORE_ERROR_CANCELLED
| MM_CORE_ERROR_ABORTED
| MM_CORE_ERROR_UNSUPPORTED
| MM_CORE_ERROR_NO_PLUGINS
| MM_CORE_ERROR_UNAUTHORIZED
| MM_CORE_ERROR_INVALID_ARGS.

Definition core_code (c : MMCoreError) : N :=
  match c with
  | MM_CORE_ERROR_FAILED => 0
  | MM_CORE_ERROR_CANCELLED => 1
  | MM_CORE_ERROR_ABORTED => 2
  | MM_CORE_ERROR_UNSUPPORTED => 3
  | MM_CORE_ERROR_NO_PLUGINS => 4
  | MM_CORE_ERROR_UNAUTHORIZED => 5
  | MM_CORE_ERROR_INVALID_ARGS => 6
  end.

Record GError : Type := mkGError {
  error_domain : GQuark;
  error_code : N;
  error_message : string
}.

Definition g_error_new (d : GQuark) (c : MMCoreError) (msg : string) : GError :=
  mkGError d (core_code c) msg.

(** [e] is an error of the core domain with code [c]. *)
Definition is_core_error (c : MMCoreError) (e : GError) : Prop :=
  error_domain e = MM_CORE_ERROR ∧ error_code e = core_code c.

(** ** GRegex: the fragment of PCRE the patterns of these files use

    Greedy quantifiers with backtracking, numbered capture groups, and an
    unanchored search that reports the leftmost match. *)

Inductive regex : Type :=
| Lit (text : string)
| Plus (cls : ascii → bool)
| Star (cls : ascii → bool)
| Seq (r1 r2 : regex)
| Opt (r : regex)
| Group (n : nat) (r : regex).

Declare Scope regex_scope.
Delimit Scope regex_scope with re.
Bind Scope regex_scope with regex.
Notation "r1 ;; r2" := (Seq r1 r2) : regex_scope.

(** capture groups by number; a group that did not take part is absent *)
Abbreviation GMatchInfo := (gmap nat string).

(** [\d] on ASCII text *)
Definition is_digit (c : ascii) : bool :=
  let n := N_of_ascii c in (48 <=? n) && (n <=? 57).

(** [[^,]] *)
Definition not_comma (c : ascii) : bool :=
  negb (N_of_ascii c =? 44).

Fixpoint strip_prefix (text s : string) : option string :=
  match text with
  | EmptyString => Some s
  | String a text' =>
      match s with
      | String b s' => if Ascii.eqb a b then strip_prefix text' s' else None
      | EmptyString => None
      end
  end.

(** the text between the start of [s] and its suffix [rest] *)
Definition consumed (s rest : string) : string :=
  substring 0 (String.length s - String.length rest) s.

Section Matcher.
Context {A : Type}.

(** [cls*], longest first, giving characters back while [k] refuses *)
Fixpoint greedy (cls : ascii → bool) (s : string) (k : string → option A) : option A :=
  match s with
  | String c s' =>
      if cls c then
        match greedy cls s' k with
        | Some x => Some x
        | None => k s
        end
      else k s
  | EmptyString => k s
  end.

Fixpoint rmatch (r : regex) (s : string) (caps : GMatchInfo)
         (k : string → GMatchInfo → option A) : option A :=
  match r with
  | Lit text =>
      match strip_prefix text s with
      | Some s' => k s' caps
      | None => None
      end
  | Plus cls =>
      match s with
      | String c s' => if cls c then greedy cls s' (λ s'', k s'' caps) else None
      | EmptyString => None
      end
  | Star cls => greedy cls s (λ s', k s' caps)
  | Seq r1 r2 => rmatch r1 s caps (λ s' caps', rmatch r2 s' caps' k)
  | Opt r' =>
      match rmatch r' s caps k with
      | Some x => Some x
      | None => k s caps
      end
  | Group n r' => rmatch r' s caps (λ s' caps', k s' (<[n := consumed s s']> caps'))
  end.
End Matcher.

(** the pattern at the start of [s] *)
Definition match_here (r : regex) (s : string) : option GMatchInfo :=
  rmatch r s ∅ (λ _ caps, Some caps).

(** [g_regex_match_full (r, s, strlen (s), 0, 0, &match_info, &inner_error)]
    followed by [g_match_info_matches (match_info)]: the leftmost match, or
    none.  No match error arises on ASCII text. *)
Fixpoint g_regex_match_full (r : regex) (s : string) : option GMatchInfo :=
  match match_here r s with
  | Some caps => Some caps
  | None =>
      match s with
      | String _ s' => g_regex_match_full r s'
      | EmptyString => None
      end
  end.

(** [g_match_info_fetch]: the text of a group, empty when it took no part *)
Definition g_match_info_fetch (match_info : GMatchInfo) (n : nat) : string :=
  default "" (match_info !! n).

Definition CRLF : string := String "013" (String "010" EmptyString).

(** The four patterns, group numbers as PCRE assigns them.  The UPINCNT
    pattern reads: literal +UPINCNT: and a blank, four groups of one or more
    digits separated by commas, an optional CR LF. *)
Definition upincnt_regex : regex :=
  (Lit "+UPINCNT: " ;; Group 1 (Plus is_digit) ;; Lit "," ;; Group 2 (Plus is_digit) ;;
   Lit "," ;; Group 3 (Plus is_digit) ;; Lit "," ;; Group 4 (Plus is_digit) ;;
   Opt (Lit CRLF))%re.

(** UIPADDR: a group of digits, then five groups of any run of characters
    other than a comma, all separated by commas, an optional CR LF. *)
Definition uipaddr_regex : regex :=
  (Lit "+UIPADDR: " ;; Group 1 (Plus is_digit) ;; Lit "," ;; Group 2 (Star not_comma) ;;
   Lit "," ;; Group 3 (Star not_comma) ;; Lit "," ;; Group 4 (Star not_comma) ;;
   Lit "," ;; Group 5 (Star not_comma) ;; Lit "," ;; Group 6 (Star not_comma) ;;
   Opt (Lit CRLF))%re.

(** CFUN: a group of digits, an optional comma and digits outside any
    group, an optional CR LF. *)
Definition cfun_regex : regex :=
  (Lit "+CFUN: " ;; Group 1 (Plus is_digit) ;; Opt (Lit "," ;; Plus is_digit) ;;
   Opt (Lit CRLF))%re.

(** URAT: a group of digits, an optional comma and second group of digits,
    an optional CR LF. *)
Definition urat_regex : regex :=
  (Lit "+URAT: " ;; Group 1 (Plus is_digit) ;; Opt (Lit "," ;; Group 2 (Plus is_digit)) ;;
   Opt (Lit CRLF))%re.

(** ** Results of the C functions *)

(** A [gboolean] function with out pointers and a [GError **]: the returned
    value, what was stored through the out pointers ([None]: nothing was
    stored) and what was stored in [*error] ([None]: left as it was). *)
Record Ret (A : Type) : Type := mkRet {
  retval : bool;
  out : option A;
  error : option GError
}.
Arguments mkRet {A} _ _ _.
Arguments retval {A} _.
Arguments out {A} _.
Arguments error {A} _.

Definition ret_true {A : Type} (a : A) : Ret A := mkRet true (Some a) None.
Definition ret_false {A : Type} (e : option GError) : Ret A := mkRet false None e.

(** A function that returns a pointer (or NULL) and reports through
    [GError **] *)
Record PtrRet (A : Type) : Type := mkPtrRet {
  pointer : option A;
  perror : option GError
}.
Arguments mkPtrRet {A} _ _.
Arguments pointer {A} _.
Arguments perror {A} _.

(** ** Modem modes *)

(** [MMModemMode] of ModemManager-enums.h, a flag mask *)
Definition MMModemMode : Type := N.
Definition MM_MODEM_MODE_NONE : MMModemMode := 0.
Definition MM_MODEM_MODE_CS : MMModemMode := N.shiftl 1 0.
Definition MM_MODEM_MODE_2G : MMModemMode := N.shiftl 1 1.
Definition MM_MODEM_MODE_3G : MMModemMode := N.shiftl 1 2.
Definition MM_MODEM_MODE_4G : MMModemMode := N.shiftl 1 3.

Record MMModemModeCombination : Type := mkComb {
  allowed : MMModemMode;
  preferred : MMModemMode
}.

(** [MMModemPowerState] of ModemManager-enums.h *)
Inductive MMModemPowerState : Type :=
| MM_MODEM_POWER_STATE_UNKNOWN
| MM_MODEM_POWER_STATE_OFF
| MM_MODEM_POWER_STATE_LOW
| MM_MODEM_POWER_STATE_ON.

(** Index of the list is the ublox-specific value *)
Definition ublox_combinations : list MMModemMode :=
  [ MM_MODEM_MODE_2G;
    N.lor MM_MODEM_MODE_2G MM_MODEM_MODE_3G;
    MM_MODEM_MODE_3G;
    MM_MODEM_MODE_4G;
    N.lor (N.lor MM_MODEM_MODE_2G MM_MODEM_MODE_3G) MM_MODEM_MODE_4G;
    N.lor MM_MODEM_MODE_2G MM_MODEM_MODE_4G;
    N.lor MM_MODEM_MODE_3G MM_MODEM_MODE_4G ].

(** [G_N_ELEMENTS (ublox_combinations)] *)
Definition N_ublox_combinations : guint := N.of_nat (List.length ublox_combinations).

(** [ublox_combinations[value]], read only after the bound check *)
Definition ublox_combination (value : guint) : MMModemMode :=
  default MM_MODEM_MODE_NONE (ublox_combinations !! N.to_nat value).

Fixpoint count_bits_positive (p : positive) : N :=
  match p with
  | xH => 1
  | xO p' => count_bits_positive p'
  | xI p' => 1 + count_bits_positive p'
  end.

(** Modelled from the spec: [mm_count_bits_set] of mm-modem-helpers.c is not
    among the embedded files; it is the number of bits set in a mask, which
    the callers compare with 1 to recognise a single mode. *)
Definition mm_count_bits_set (number : N) : guint :=
  match number with
  | N0 => 0
  | Npos p => count_bits_positive p
  end.

(** ** The helpers of mm-modem-helpers.h

    Their implementations are not among the embedded files, so the parsers
    take them as an interface. *)

Class MMHelpers : Type := {
  (** a group read as an unsigned decimal number, or failure *)
  mm_get_uint_from_match_info : GMatchInfo → nat → option guint;
  (** a group with its quotes removed, or NULL *)
  mm_get_string_unquoted_from_match_info : GMatchInfo → nat → option string;
  (** the text after a leading tag *)
  mm_strip_tag : string → string → string;
  (** the parenthesised groups of a reply; no vector at all counts as empty *)
  mm_split_string_groups : string → list string;
  (** a list such as 0-6 or 0,2,3 (NULL in: nothing out), the array or NULL
      and the error it set, if any *)
  mm_parse_uint_list : option string → PtrRet (list guint)
}.

(** ** plugins/ublox/mm-modem-helpers-ublox.c *)

Definition core_error (c : MMCoreError) (msg : string) : GError :=
  g_error_new MM_CORE_ERROR c msg.

(** [~mode] on the 32 bits of the enumeration *)
Definition mode_not (mode : MMModemMode) : MMModemMode := N.lxor mode 4294967295.

Section Parsers.
Context `{MMHelpers}.

(** *** +UPINCNT response parser *)

Definition mm_ublox_parse_upincnt_response (response : string)
  : Ret (guint * guint * guint * guint) :=
  let success := true in
  let out (inner_error : option GError)
          (pin_attempts pin2_attempts puk_attempts puk2_attempts : guint)
          (success : bool) :=
    match inner_error with
    | Some e => ret_false (Some e)
    | None =>
        if negb success then
          ret_false (Some (core_error MM_CORE_ERROR_FAILED
                             ("Couldn't parse +UPINCNT response: '" +:+ response +:+ "'")))
        else ret_true (pin_attempts, pin2_attempts, puk_attempts, puk2_attempts)
    end in
  match g_regex_match_full upincnt_regex response with
  | Some match_info =>
      match mm_get_uint_from_match_info match_info 1 with
      | None =>
          out (Some (core_error MM_CORE_ERROR_UNSUPPORTED "Couldn't parse PIN attempts"))
              0 0 0 0 success
      | Some pin_attempts =>
      match mm_get_uint_from_match_info match_info 2 with
      | None =>
          out (Some (core_error MM_CORE_ERROR_UNSUPPORTED "Couldn't parse PIN2 attempts"))
              pin_attempts 0 0 0 success
      | Some pin2_attempts =>
      match mm_get_uint_from_match_info match_info 3 with
      | None =>
          out (Some (core_error MM_CORE_ERROR_UNSUPPORTED "Couldn't parse PUK attempts"))
              pin_attempts pin2_attempts 0 0 success
      | Some puk_attempts =>
      match mm_get_uint_from_match_info match_info 4 with
      | None =>
          out (Some (core_error MM_CORE_ERROR_UNSUPPORTED "Couldn't parse PUK2 attempts"))
              pin_attempts pin2_attempts puk_attempts 0 success
      | Some puk2_attempts =>
          let success := true in
          out None pin_attempts pin2_attempts puk_attempts puk2_attempts success
      end end end end
  | None => out None 0 0 0 0 success
  end.

(** *** CFUN? response parser *)

(** the [switch (value)], starting from [state = MM_MODEM_POWER_STATE_UNKNOWN] *)
Definition cfun_state_of_value (value : guint) : MMModemPowerState :=
  if value =? 1 then MM_MODEM_POWER_STATE_ON
  else if (value =? 0) || (value =? 4) || (value =? 19) then MM_MODEM_POWER_STATE_LOW
  else MM_MODEM_POWER_STATE_UNKNOWN.

Definition mm_ublox_parse_cfun_response (response : string) : Ret MMModemPowerState :=
  let out (inner_error : option GError) (state : MMModemPowerState) :=
    match inner_error with
    | Some e => ret_false (Some e)
    | None =>
        match state with
        | MM_MODEM_POWER_STATE_UNKNOWN =>
            (* the error is built in the local and the function returns
               without handing it to the caller *)
            let inner_error :=
              Some (core_error MM_CORE_ERROR_FAILED
                      ("Couldn't parse +CFUN response: " +:+ response)) in
            ret_false None
        | _ => ret_true state
        end
    end in
  match g_regex_match_full cfun_regex response with
  | Some match_info =>
      match mm_get_uint_from_match_info match_info 1 with
      | None =>
          out (Some (core_error MM_CORE_ERROR_FAILED "Couldn't read power state value"))
              MM_MODEM_POWER_STATE_UNKNOWN
      | Some value => out None (cfun_state_of_value value)
      end
  | None => out None MM_MODEM_POWER_STATE_UNKNOWN
  end.

(** *** URAT=? response parser *)

(** the loop over the [preferred] array, appending to [combinations] *)
Definition urat_test_preferred_loop (combination_allowed : MMModemMode)
           (preferred_values : list guint)
           (combinations : list MMModemModeCombination)
  : list MMModemModeCombination :=
  foldl (λ combinations preferred_value,
           if N_ublox_combinations <=? preferred_value then combinations
           else
             let combination :=
               mkComb combination_allowed (ublox_combination preferred_value) in
             if negb (mm_count_bits_set (preferred combination) =? 1)
             then combinations
             else if N.land (allowed combination) (preferred combination) =? 0
             then combinations
             else combinations ++ [combination])
        combinations preferred_values.

(** the loop over the [selected] array; [preferred_values] is the
    [preferred] array or NULL *)
Definition urat_test_selected_loop (selected_values : list guint)
           (preferred_values : option (list guint))
           (combinations : list MMModemModeCombination)
  : list MMModemModeCombination :=
  foldl (λ combinations selected_value,
           if N_ublox_combinations <=? selected_value then combinations
           else
             let combination :=
               mkComb (ublox_combination selected_value) MM_MODEM_MODE_NONE in
             let combinations := combinations ++ [combination] in
             if mm_count_bits_set (allowed combination) =? 1 then combinations
             else
               match preferred_values with
               | None => combinations
               | Some preferred_values =>
                   urat_test_preferred_loop (allowed combination) preferred_values
                                            combinations
               end)
        combinations selected_values.

Definition mm_ublox_parse_urat_test_response (response : string)
  : PtrRet (list MMModemModeCombination) :=
  let out (inner_error : GError) := mkPtrRet None (Some inner_error) in
  let response := mm_strip_tag response "+URAT:" in
  let split := mm_split_string_groups response in
  let split_len := List.length split in
  if (Nat.ltb 2 split_len || Nat.ltb split_len 1)%bool then
    out (core_error MM_CORE_ERROR_FAILED
           ("Unexpected number of groups in +URAT=? response: " +:+ pretty split_len))
  else
    let selected := mm_parse_uint_list (split !! 0%nat) in
    match perror selected with
    | Some e => out e
    | None =>
        match pointer selected with
        | None =>
            out (core_error MM_CORE_ERROR_FAILED
                   "No selected RAT values given in +URAT=? response")
        | Some selected_values =>
            let preferred_array := mm_parse_uint_list (split !! 1%nat) in
            match perror preferred_array with
            | Some e => out e
            | None =>
                let combinations :=
                  urat_test_selected_loop selected_values (pointer preferred_array) [] in
                if Nat.eqb (List.length combinations) 0 then
                  out (core_error MM_CORE_ERROR_FAILED
                         "No combinations built from +URAT=? response")
                else mkPtrRet (Some combinations) None
            end
        end
    end.
(** *** Get mode to apply when ANY *)

(** the body of the loop, on the locals [any] and [any_bits_set] *)
Definition modem_mode_any_step (locals : MMModemMode * guint)
           (combination : MMModemModeCombination) : MMModemMode * guint :=
  let '(any, any_bits_set) := locals in
  if preferred combination =? MM_MODEM_MODE_NONE then (any, any_bits_set)
  else
    let bits_set := mm_count_bits_set (allowed combination) in
    if any_bits_set <? bits_set then (allowed combination, bits_set)
    else (any, any_bits_set).

(** [None]: the [g_assert] fails and the process aborts *)
Definition mm_ublox_get_modem_mode_any (combinations : list MMModemModeCombination)
  : option MMModemMode :=
  let '(any, any_bits_set) :=
    foldl modem_mode_any_step (MM_MODEM_MODE_NONE, 0) combinations in
  if any =? MM_MODEM_MODE_NONE then None else Some any.

(** *** URAT? response parser

    The two messages that print mode names leave the names out:
    [mm_modem_mode_build_string_from_mask] is not among the embedded
    files. *)

Definition mm_ublox_parse_urat_read_response (response : string)
  : Ret (MMModemMode * MMModemMode) :=
  let out (inner_error : option GError) (allowed preferred : MMModemMode) :=
    match inner_error with
    | Some e => ret_false (Some e)
    | None =>
        if allowed =? MM_MODEM_MODE_NONE then
          (* as in the CFUN parser, the error stays in the local *)
          let inner_error :=
            Some (core_error MM_CORE_ERROR_FAILED
                    ("Couldn't parse +URAT response: " +:+ response)) in
          ret_false None
        else ret_true (allowed, preferred)
    end in
  match g_regex_match_full urat_regex response with
  | Some match_info =>
      (* Selected item is mandatory *)
      match mm_get_uint_from_match_info match_info 1 with
      | None =>
          out (Some (core_error MM_CORE_ERROR_FAILED "Couldn't read AcT selected value"))
              MM_MODEM_MODE_NONE MM_MODEM_MODE_NONE
      | Some value =>
          if N_ublox_combinations <=? value then
            out (Some (core_error MM_CORE_ERROR_FAILED
                         ("Unexpected AcT selected value: " +:+ pretty value)))
                MM_MODEM_MODE_NONE MM_MODEM_MODE_NONE
          else
            let allowed := ublox_combination value in
            (* Preferred item is optional *)
            match mm_get_uint_from_match_info match_info 2 with
            | Some value =>
                if N_ublox_combinations <=? value then
                  out (Some (core_error MM_CORE_ERROR_FAILED
                               ("Unexpected AcT preferred value: " +:+ pretty value)))
                      allowed MM_MODEM_MODE_NONE
                else
                  let preferred := ublox_combination value in
                  if negb (mm_count_bits_set preferred =? 1) then
                    out (Some (core_error MM_CORE_ERROR_FAILED
                                 "AcT preferred value should be a single AcT"))
                        allowed preferred
                  else if N.land allowed preferred =? 0 then
                    out (Some (core_error MM_CORE_ERROR_FAILED
                                 "AcT preferred value not a subset of the allowed value"))
                        allowed preferred
                  else out None allowed preferred
            | None => out None allowed MM_MODEM_MODE_NONE
            end
      end
  | None => out None MM_MODEM_MODE_NONE MM_MODEM_MODE_NONE
  end.

(** *** UIPADDR=N response parser *)

(** What an out pointer of this parser points to: a [guint] or a
    [gchar *], which may be NULL. *)
Inductive cell : Type :=
| Cell_guint (v : guint)
| Cell_string (s : option string).

(** [if (p) *p = v;] on a memory of cells; [None] is the NULL pointer *)
Definition store_if (p : option nat) (v : cell) (mem : gmap nat cell) : gmap nat cell :=
  match p with
  | Some a => <[a := v]> mem
  | None => mem
  end.

Record MemRet : Type := mkMemRet {
  m_retval : bool;
  m_error : option GError;
  m_mem : gmap nat cell
}.

Definition mm_ublox_parse_uipaddr_response (response : string)
           (out_cid out_if_name out_ipv4_address out_ipv4_subnet
            out_ipv6_global_address out_ipv6_link_local_address : option nat)
           (mem : gmap nat cell) : MemRet :=
  let out (inner_error : option GError) (cid : guint)
          (if_name ipv4_address ipv4_subnet
           ipv6_global_address ipv6_link_local_address : option string) :=
    match inner_error with
    | Some e => mkMemRet false (Some e) mem
    | None =>
        let mem := store_if out_cid (Cell_guint cid) mem in
        let mem := store_if out_if_name (Cell_string if_name) mem in
        let mem := store_if out_ipv4_address (Cell_string ipv4_address) mem in
        let mem := store_if out_ipv4_subnet (Cell_string ipv4_subnet) mem in
        let mem := store_if out_ipv6_global_address
                            (Cell_string ipv6_global_address) mem in
        let mem := store_if out_ipv6_link_local_address
                            (Cell_string ipv6_link_local_address) mem in
        mkMemRet true None mem
    end in
  (* a string is fetched only when its out pointer is given *)
  let fetch_if (p : option nat) (match_info : GMatchInfo) (n : nat) : option string :=
    match p with
    | Some _ => mm_get_string_unquoted_from_match_info match_info n
    | None => None
    end in
  match g_regex_match_full uipaddr_regex response with
  | None =>
      out (Some (core_error MM_CORE_ERROR_INVALID_ARGS "Couldn't match +UIPADDR response"))
          0 None None None None None
  | Some match_info =>
      match out_cid, mm_get_uint_from_match_info match_info 1 with
      | Some _, None =>
          out (Some (core_error MM_CORE_ERROR_FAILED "Error parsing cid"))
              0 None None None None None
      | _, read_cid =>
          let cid := match out_cid with Some _ => default 0 read_cid | None => 0 end in
          let if_name := fetch_if out_if_name match_info 2%nat in
          match out_if_name, if_name with
          | Some _, None =>
              out (Some (core_error MM_CORE_ERROR_FAILED "Error parsing interface name"))
                  cid None None None None None
          | _, _ =>
              (* Remaining strings are optional *)
              let ipv4_address := fetch_if out_ipv4_address match_info 3%nat in
              let ipv4_subnet := fetch_if out_ipv4_subnet match_info 4%nat in
              let ipv6_global_address :=
                fetch_if out_ipv6_global_address match_info 5%nat in
              let ipv6_link_local_address :=
                fetch_if out_ipv6_link_local_address match_info 6%nat in
              out None cid if_name ipv4_address ipv4_subnet
                  ipv6_global_address ipv6_link_local_address
          end
      end
  end.
End Parsers.

(** *** UUSBCONF? and UBMCONF? response parsers *)

(** [MMUbloxUsbProfile] and [MMUbloxNetworkingMode] of
    mm-modem-helpers-ublox.h, by the names the parsers use *)
Inductive MMUbloxUsbProfile : Type :=
| MM_UBLOX_USB_PROFILE_UNKNOWN
| MM_UBLOX_USB_PROFILE_RNDIS
| MM_UBLOX_USB_PROFILE_ECM
| MM_UBLOX_USB_PROFILE_BACK_COMPATIBLE.

Inductive MMUbloxNetworkingMode : Type :=
| MM_UBLOX_NETWORKING_MODE_UNKNOWN
| MM_UBLOX_NETWORKING_MODE_ROUTER
| MM_UBLOX_NETWORKING_MODE_BRIDGE.

(** UUSBCONF: a group of digits and three groups of any run of characters
    other than a comma, separated by commas, an optional CR LF. *)
Definition uusbconf_regex : regex :=
  (Lit "+UUSBCONF: " ;; Group 1 (Plus is_digit) ;; Lit "," ;; Group 2 (Star not_comma) ;;
   Lit "," ;; Group 3 (Star not_comma) ;; Lit "," ;; Group 4 (Star not_comma) ;;
   Opt (Lit CRLF))%re.

(** UBMCONF: a group of digits, an optional CR LF. *)
Definition ubmconf_regex : regex :=
  (Lit "+UBMCONF: " ;; Group 1 (Plus is_digit) ;; Opt (Lit CRLF))%re.

Section ProfileParsers.
Context `{MMHelpers}.

Definition mm_ublox_parse_uusbconf_response (response : string) : Ret MMUbloxUsbProfile :=
  let out (inner_error : option GError) (profile : MMUbloxUsbProfile) :=
    match inner_error with
    | Some e => ret_false (Some e)
    | None =>
        match profile with
        | MM_UBLOX_USB_PROFILE_UNKNOWN =>
            ret_false (Some (core_error MM_CORE_ERROR_FAILED
                               "Couldn't parse profile response"))
        | _ => ret_true profile
        end
    end in
  match g_regex_match_full uusbconf_regex response with
  | Some match_info =>
      match mm_get_string_unquoted_from_match_info match_info 2 with
      | Some (String _ _ as profile_name) =>
          if String.eqb profile_name "RNDIS" then out None MM_UBLOX_USB_PROFILE_RNDIS
          else if String.eqb profile_name "ECM" then out None MM_UBLOX_USB_PROFILE_ECM
          else
            out (Some (core_error MM_CORE_ERROR_UNSUPPORTED
                         ("Unknown USB profile: '" +:+ profile_name +:+ "'")))
                MM_UBLOX_USB_PROFILE_UNKNOWN
      | _ => out None MM_UBLOX_USB_PROFILE_BACK_COMPATIBLE
      end
  | None => out None MM_UBLOX_USB_PROFILE_UNKNOWN
  end.

Definition mm_ublox_parse_ubmconf_response (response : string)
  : Ret MMUbloxNetworkingMode :=
  let out (inner_error : option GError) (mode : MMUbloxNetworkingMode) :=
    match inner_error with
    | Some e => ret_false (Some e)
    | None =>
        match mode with
        | MM_UBLOX_NETWORKING_MODE_UNKNOWN =>
            ret_false (Some (core_error MM_CORE_ERROR_FAILED
                               "Couldn't parse networking mode response"))
        | _ => ret_true mode
        end
    end in
  match g_regex_match_full ubmconf_regex response with
  | Some match_info =>
      match mm_get_uint_from_match_info match_info 1 with
      | Some mode_id =>
          if mode_id =? 1 then out None MM_UBLOX_NETWORKING_MODE_ROUTER
          else if mode_id =? 2 then out None MM_UBLOX_NETWORKING_MODE_BRIDGE
          else
            out (Some (core_error MM_CORE_ERROR_UNSUPPORTED
                         ("Unknown mode id: '" +:+ pretty mode_id +:+ "'")))
                MM_UBLOX_NETWORKING_MODE_UNKNOWN
      | None => out None MM_UBLOX_NETWORKING_MODE_UNKNOWN
      end
  | None => out None MM_UBLOX_NETWORKING_MODE_UNKNOWN
  end.

End ProfileParsers.

(** *** URAT=X command builder *)

(** the loop of [append_rat_value] from index [i] on; [None]: no entry of
    the table equals [mode] *)
Fixpoint append_rat_value_from (table : list MMModemMode) (i : guint)
         (str : string) (mode : MMModemMode) : option string :=
  match table with
  | [] => None
  | entry :: table' =>
      if entry =? mode then Some (str +:+ pretty i)
      else append_rat_value_from table' (i + 1) str mode
  end.

(** the new content of [str] is the stored value *)
Definition append_rat_value (str : string) (mode : MMModemMode) : Ret string :=
  match append_rat_value_from ublox_combinations 0 str mode with
  | Some str' => ret_true str'
  | None =>
      ret_false (Some (core_error MM_CORE_ERROR_FAILED
                         "No AcT value matches requested mode"))
  end.

Definition mm_ublox_build_urat_set_command (allowed preferred : MMModemMode)
  : PtrRet string :=
  let command := "+URAT=" in
  let r := append_rat_value command allowed in
  match out r with
  | None => mkPtrRet None (error r)
  | Some command =>
      if negb (preferred =? MM_MODEM_MODE_NONE) then
        let command := command +:+ "," in
        let r := append_rat_value command preferred in
        match out r with
        | None => mkPtrRet None (error r)
        | Some command => mkPtrRet (Some command) None
        end
      else mkPtrRet (Some command) None
  end.

(** *** Per-model filtering of the supported modes *)

(** [NULL] model: [None] *)
Definition supported_modes_per_model (model : option string) : MMModemMode :=
  let all := N.lor (N.lor MM_MODEM_MODE_2G MM_MODEM_MODE_3G) MM_MODEM_MODE_4G in
  match model with
  | Some model =>
      (* Some TOBY-L2/MPCI-L2 devices don't support 2G *)
      if (String.eqb model "TOBY-L201" || String.eqb model "TOBY-L220"
          || String.eqb model "MPCI-L201")%bool
      then N.land all (mode_not MM_MODEM_MODE_2G)
      (* None of the LISA-U or SARA-U devices support 4G *)
      else if (String.prefix "LISA-U" model || String.prefix "SARA-U" model)%bool
      then
        let all := N.land all (mode_not MM_MODEM_MODE_4G) in
        (* Some SARA devices don't support 2G *)
        if (String.eqb model "SARA-U270-53S" || String.eqb model "SARA-U280")%bool
        then N.land all (mode_not MM_MODEM_MODE_2G)
        else all
      else all
  | None => all
  end.

(** a combination uses no mode outside [mask] *)
Definition compatible (mask : MMModemMode) (mode : MMModemModeCombination) : bool :=
  N.land (allowed mode) (mode_not mask) =? 0.

(** Modelled from the spec: [mm_filter_supported_modes] of
    mm-modem-helpers.c is not among the embedded files; given the one-entry
    array [all] it keeps, in their order, the supported combinations that
    are compatible with the allowed mask of that entry, and only those. *)
Definition mm_filter_supported_modes (all supported_combinations : list MMModemModeCombination)
  : list MMModemModeCombination :=
  match all with
  | [all_item] => List.filter (compatible (allowed all_item)) supported_combinations
  | _ => []
  end.

Definition mm_ublox_filter_supported_modes (model : option string)
           (combinations : list MMModemModeCombination)
  : PtrRet (list MMModemModeCombination) :=
  match model with
  (* Model not specified? *)
  | None => mkPtrRet (Some combinations) None
  | Some model_name =>
      let mode := mkComb (supported_modes_per_model model) MM_MODEM_MODE_NONE in
      (* Nothing filtered? *)
      if allowed mode =? supported_modes_per_model None then
        mkPtrRet (Some combinations) None
      else
        let all := [mode] in
        let filtered := mm_filter_supported_modes all combinations in
        (* Error if nothing left *)
        if Nat.eqb (List.length filtered) 0 then
          mkPtrRet None
            (Some (core_error MM_CORE_ERROR_FAILED
                     ("No valid mode combinations built after filtering (model "
                        +:+ model_name +:+ ")")))
        else mkPtrRet (Some filtered) None
  end.

(** ** Reference helpers

    The implementations of mm-modem-helpers.c are not among the embedded
    files.  The definitions below follow what the callers and their comments
    rely on; they are used only where a statement needs a concrete helper,
    and every statement over an arbitrary [MMHelpers] is independent of
    them. *)

Definition G_MAXUINT : N := 4294967295.

Fixpoint decimal_value (str : string) (num : N) : option N :=
  match str with
  | EmptyString => Some num
  | String c str' =>
      if is_digit c then decimal_value str' (10 * num + (N_of_ascii c - 48)) else None
  end.

(** Modelled from the spec: [mm_get_uint_from_str] reads a text of decimal
    digits into a [guint]; it fails on the empty text, on any other
    character and on a value that a [guint] cannot hold. *)
Definition mm_get_uint_from_str (str : string) : option guint :=
  match str with
  | EmptyString => None
  | _ =>
      match decimal_value str 0 with
      | Some num => if num <=? G_MAXUINT then Some num else None
      | None => None
      end
  end.

Definition is_space (c : ascii) : bool :=
  let n := N_of_ascii c in (n =? 32) || ((9 <=? n) && (n <=? 13)).

Fixpoint skip_spaces (s : string) : string :=
  match s with
  | String c s' => if is_space c then skip_spaces s' else s
  | EmptyString => s
  end.

Definition string_reverse (s : string) : string :=
  string_of_list_ascii (rev (list_ascii_of_string s)).

(** [g_strstrip] *)
Definition g_strstrip (s : string) : string :=
  string_reverse (skip_spaces (string_reverse (skip_spaces s))).

Definition double_quote : ascii := "034"%char.

(** [s] between double quotes *)
Definition quoted (s : string) : string :=
  String double_quote (s +:+ String double_quote "").

(** Modelled from the spec: [mm_get_string_unquoted_from_match_info] fetches
    a group, removes a pair of enclosing double quotes and gives NULL for
    what is then empty. *)
Definition ref_get_string_unquoted_from_match_info (match_info : GMatchInfo) (n : nat)
  : option string :=
  let str := g_match_info_fetch match_info n in
  let chars := list_ascii_of_string str in
  let str :=
    match chars, rev chars with
    | first :: _ :: _, final :: _ =>
        if (Ascii.eqb first double_quote && Ascii.eqb final double_quote)%bool
        then g_strstrip (substring 1 (String.length str - 2) str)
        else str
    | _, _ => str
    end in
  match str with
  | EmptyString => None
  | _ => Some str
  end.

(** Modelled from the spec: [mm_strip_tag] skips the tag when the text starts
    with it, and then any white space. *)
Definition ref_strip_tag (str cmd : string) : string :=
  match strip_prefix cmd str with
  | Some rest => skip_spaces rest
  | None => skip_spaces str
  end.

Definition open_paren : ascii := "040"%char.
Definition close_paren : ascii := "041"%char.

(** the groups of [s], read at nesting [depth] with [cur] the text of the
    group being read *)
Fixpoint split_groups_from (s : string) (depth : nat) (cur : string)
         (groups : list string) : list string :=
  match s with
  | EmptyString => groups
  | String c s' =>
      if Ascii.eqb c open_paren then
        match depth with
        | O => split_groups_from s' 1 "" groups
        | S _ => split_groups_from s' (S depth) (cur +:+ String c "") groups
        end
      else if Ascii.eqb c close_paren then
        match depth with
        | O => split_groups_from s' 0 cur groups
        | S O => split_groups_from s' 0 "" (groups ++ [cur])
        | S d => split_groups_from s' d (cur +:+ String c "") groups
        end
      else
        match depth with
        | O => split_groups_from s' depth cur groups
        | S _ => split_groups_from s' depth (cur +:+ String c "") groups
        end
  end.

(** Modelled from the spec: [mm_split_string_groups] gives the texts of the
    parenthesised groups of a reply such as (0-6),(0,2,3). *)
Definition ref_split_string_groups (str : string) : list string :=
  split_groups_from str 0 "" [].

(** [s] cut at each [sep] *)
Fixpoint split_at_each (sep : ascii) (s : string) (cur : string) : list string :=
  match s with
  | EmptyString => [cur]
  | String c s' =>
      if Ascii.eqb c sep then cur :: split_at_each sep s' ""
      else split_at_each sep s' (cur +:+ String c "")
  end.

(** [s] cut at the first [sep], if any *)
Fixpoint split_at_first (sep : ascii) (s : string) (cur : string) : option (string * string) :=
  match s with
  | EmptyString => None
  | String c s' =>
      if Ascii.eqb c sep then Some (cur, s')
      else split_at_first sep s' (cur +:+ String c "")
  end.

Definition uint_range (start stop : guint) : list guint :=
  (λ i, start + N.of_nat i) <$> seq 0 (N.to_nat (stop + 1 - start)).

Definition uint_list_error (msg : string) : PtrRet (list guint) :=
  mkPtrRet None (Some (core_error MM_CORE_ERROR_FAILED msg)).

Fixpoint parse_uint_items (items : list string) (array : list guint) : PtrRet (list guint) :=
  match items with
  | [] =>
      match array with
      | [] => uint_list_error "couldn't parse list of integers"
      | _ => mkPtrRet (Some array) None
      end
  | aux :: next =>
      match split_at_first "-" aux "" with
      | Some (start_str, stop_str) =>
          match mm_get_uint_from_str start_str, mm_get_uint_from_str stop_str with
          | Some start, Some stop =>
              if stop <? start then uint_list_error "couldn't parse interval: start > stop"
              else parse_uint_items next (array ++ uint_range start stop)
          | None, _ => uint_list_error "couldn't parse interval start integer"
          | _, None => uint_list_error "couldn't parse interval stop integer"
          end
      | None =>
          match mm_get_uint_from_str aux with
          | Some num => parse_uint_items next (array ++ [num])
          | None => uint_list_error "couldn't parse integer"
          end
      end
  end.

(** Modelled from the spec: [mm_parse_uint_list] reads a comma separated
    list of numbers and intervals such as 0-6 or 0,2,3; for NULL or an empty
    text it gives NULL and sets no error. *)
Definition ref_parse_uint_list (str : option string) : PtrRet (list guint) :=
  match str with
  | None | Some EmptyString => mkPtrRet None None
  | Some str => parse_uint_items (split_at_each "," str "") []
  end.

Definition reference_helpers : MMHelpers := {|
  mm_get_uint_from_match_info match_info n :=
    mm_get_uint_from_str (g_match_info_fetch match_info n);
  mm_get_string_unquoted_from_match_info := ref_get_string_unquoted_from_match_info;
  mm_strip_tag := ref_strip_tag;
  mm_split_string_groups := ref_split_string_groups;
  mm_parse_uint_list := ref_parse_uint_list
|}.

(** ** mm-broadband-modem-mbim.c: first enabling and initialization steps

    The asynchronous calls are written in continuation style: an operation
    that the C code starts with a callback is followed at once by that
    callback, applied to the outcome the environment holds for it.  Calls
    that leave the file are recorded in a trace. *)

Module Mbim.

Definition gpointer : Type := option nat.

Inductive OpRes : Type :=
| OpRes_unset
| OpRes_gboolean (b : bool)
| OpRes_gpointer (p : gpointer).

Record GSimpleAsyncResult : Type := mkSimple {
  simple_error : option GError;
  simple_op_res : OpRes;
  simple_completed : bool
}.

Definition g_simple_async_result_new : GSimpleAsyncResult :=
  mkSimple None OpRes_unset false.

Definition g_simple_async_result_set_error (simple : GSimpleAsyncResult)
           (d : GQuark) (c : MMCoreError) (msg : string) : GSimpleAsyncResult :=
  mkSimple (Some (g_error_new d c msg)) (simple_op_res simple) (simple_completed simple).

Definition g_simple_async_result_take_error (simple : GSimpleAsyncResult)
           (e : GError) : GSimpleAsyncResult :=
  mkSimple (Some e) (simple_op_res simple) (simple_completed simple).

Definition g_simple_async_result_set_op_res_gboolean (simple : GSimpleAsyncResult)
           (b : bool) : GSimpleAsyncResult :=
  mkSimple (simple_error simple) (OpRes_gboolean b) (simple_completed simple).

Definition g_simple_async_result_set_op_res_gpointer (simple : GSimpleAsyncResult)
           (p : gpointer) : GSimpleAsyncResult :=
  mkSimple (simple_error simple) (OpRes_gpointer p) (simple_completed simple).

(** [g_simple_async_result_complete] and [_complete_in_idle] *)
Definition g_simple_async_result_complete (simple : GSimpleAsyncResult)
  : GSimpleAsyncResult :=
  mkSimple (simple_error simple) (simple_op_res simple) true.

(** the error to hand over, if one was set *)
Definition g_simple_async_result_propagate_error (simple : GSimpleAsyncResult)
  : option GError :=
  simple_error simple.

Definition g_simple_async_result_get_op_res_gpointer (simple : GSimpleAsyncResult)
  : gpointer :=
  match simple_op_res simple with
  | OpRes_gpointer p => p
  | _ => None
  end.

Record MMMbimPort : Type := mkPort {
  port_is_open : bool
}.

(** What the rest of the daemon answers.  A [GAsyncResult] of the parent
    class or of the port is given by what its finish function returns. *)
Record Environment : Type := mkEnv {
  (** [mm_base_modem_get_port_mbim]: the port, or NULL *)
  base_modem_port_mbim : option MMMbimPort;
  (** [mm_mbim_port_open_finish]: [None] is TRUE, otherwise FALSE and the error *)
  mbim_port_open_result : option GError;
  (** the parent's [enabling_started_finish] *)
  parent_enabling_result : Ret unit;
  (** the parent's [initialization_started_finish]: pointer and error *)
  parent_initialization_result : PtrRet nat
}.

Inductive call : Type :=
| Call_mm_mbim_port_open
| Call_parent_initialization_started
| Call_parent_enabling_started.

(** *** First enabling step *)

Definition enabling_started_finish (res : GSimpleAsyncResult) : Ret unit :=
  match g_simple_async_result_propagate_error res with
  | Some e => mkRet false None (Some e)
  | None => mkRet true None None
  end.

Definition parent_enabling_started_ready (res : Ret unit) (simple : GSimpleAsyncResult)
  : GSimpleAsyncResult :=
  (* on failure of the parent the error is logged and freed: Don't treat
     this as fatal *)
  let error := if retval res then None else error res in
  let simple := g_simple_async_result_set_op_res_gboolean simple true in
  g_simple_async_result_complete simple.

Definition enabling_started (env : Environment) : list call * GSimpleAsyncResult :=
  let result := g_simple_async_result_new in
  ([Call_parent_enabling_started],
   parent_enabling_started_ready (parent_enabling_result env) result).

(** *** First initialization step *)

Record InitializationStartedContext : Type := mkCtx {
  ctx_result : GSimpleAsyncResult;
  ctx_mbim : option MMMbimPort
}.

Definition initialization_started_context_complete_and_free
           (ctx : InitializationStartedContext) : GSimpleAsyncResult :=
  g_simple_async_result_complete (ctx_result ctx).

Definition initialization_started_finish (res : GSimpleAsyncResult) : PtrRet nat :=
  match g_simple_async_result_propagate_error res with
  | Some e => mkPtrRet None (Some e)
  | None =>
      (* Just parent's pointer passed here *)
      mkPtrRet (g_simple_async_result_get_op_res_gpointer res) None
  end.

Definition parent_initialization_started_ready (res : PtrRet nat)
           (ctx : InitializationStartedContext) : GSimpleAsyncResult :=
  let parent_ctx := pointer res in
  (* an error of the parent is logged and freed: Don't treat this as fatal *)
  let error := perror res in
  let result := g_simple_async_result_set_op_res_gpointer (ctx_result ctx) parent_ctx in
  initialization_started_context_complete_and_free (mkCtx result (ctx_mbim ctx)).

Definition parent_initialization_started (env : Environment)
           (ctx : InitializationStartedContext) : list call * GSimpleAsyncResult :=
  ([Call_parent_initialization_started],
   parent_initialization_started_ready (parent_initialization_result env) ctx).

Definition mbim_port_open_ready (env : Environment) (res : option GError)
           (ctx : InitializationStartedContext) : list call * GSimpleAsyncResult :=
  match res with
  | Some error =>
      let result := g_simple_async_result_take_error (ctx_result ctx) error in
      ([], initialization_started_context_complete_and_free (mkCtx result (ctx_mbim ctx)))
  | None =>
      (* Done we are, launch parent's callback *)
      parent_initialization_started env ctx
  end.

Definition initialization_started (env : Environment) : list call * GSimpleAsyncResult :=
  let ctx := mkCtx g_simple_async_result_new (base_modem_port_mbim env) in
  match ctx_mbim ctx with
  | None =>
      (* This may happen if we unplug the modem unexpectedly *)
      let result :=
        g_simple_async_result_set_error (ctx_result ctx) MM_CORE_ERROR MM_CORE_ERROR_FAILED
                                        "Cannot initialize: MBIM port went missing" in
      ([], initialization_started_context_complete_and_free (mkCtx result (ctx_mbim ctx)))
  | Some mbim =>
      if port_is_open mbim then
        (* Nothing to be done, just launch parent's callback *)
        parent_initialization_started env ctx
      else
        (* Now open our MBIM port *)
        let '(calls, result) := mbim_port_open_ready env (mbim_port_open_result env) ctx in
        (Call_mm_mbim_port_open :: calls, result)
  end.

End Mbim.

(** ** Words of the claims *)

(** a mask of exactly one mode *)
Definition single_mode (mode : MMModemMode) : Prop :=
  ∃ bit : N, mode = N.shiftl 1 bit.

(** every mode of [sub] is a mode of [mask] *)
Definition mode_subset (sub mask : MMModemMode) : Prop :=
  N.land sub mask = sub.

(** what the URAT? parser accepts, over the numbers read from the first
    and second field ([None]: the field could not be read) *)
Definition urat_read_accepts (a p : option guint) : Prop :=
  ∃ va, a = Some va ∧ va < 7 ∧
        match p with
        | None => True
        | Some vp =>
            vp < 7 ∧ single_mode (ublox_combination vp)
            ∧ mode_subset (ublox_combination vp) (ublox_combination va)
        end.

(** the number a field of the text spells, whatever its size; [None]: the
    group took no part in the match, so the field is not there *)
Definition field_number (match_info : GMatchInfo) (n : nat) : option N :=
  match match_info !! n with
  | Some digits => decimal_value digits 0
  | None => None
  end.

(** C4 as it is worded: [a] and [p] are the numbers that stand in the
    response, and [p] is present whenever the response has a second field *)
Definition urat_read_as_worded `{MMHelpers} : Prop :=
  ∀ (response : string) (match_info : GMatchInfo),
    g_regex_match_full urat_regex response = Some match_info →
    let r := mm_ublox_parse_urat_read_response response in
    let a := field_number match_info 1 in
    let p := field_number match_info 2 in
    (retval r = true ↔ urat_read_accepts a p)
    ∧ (retval r = false →
       out r = None ∧ ∃ e, error r = Some e ∧ is_core_error MM_CORE_ERROR_FAILED e)
    ∧ (retval r = true →
       ∃ va, a = Some va ∧ error r = None
             ∧ out r = Some (ublox_combination va,
                             match p with
                             | Some vp => ublox_combination vp
                             | None => MM_MODEM_MODE_NONE
                             end)).

(** every character of [s] is of the class *)
Fixpoint all_chars (cls : ascii → bool) (s : string) : bool :=
  match s with
  | EmptyString => true
  | String c s' => cls c && all_chars cls s'
  end.

(** [s] begins with a character of the class *)
Definition starts_with (cls : ascii → bool) (s : string) : bool :=
  match s with
  | String c _ => cls c
  | EmptyString => false
  end.

(** a non-empty run of characters of the class, such as a decimal number *)
Definition run_of (cls : ascii → bool) (s : string) : Prop :=
  s ≠ "" ∧ all_chars cls s = true.

Definition plus_sign : ascii := "043"%char.

(** text in which no tag can start *)
Definition no_plus (s : string) : Prop :=
  all_chars (λ c, negb (Ascii.eqb plus_sign c)) s = true.

(** the response a modem gives to URAT? after the command was applied: the
    selected value [i] and, if any, the preferred value [j] *)
Definition urat_read_response_text (i : guint) (j : option guint) : string :=
  "+URAT: " +:+ pretty i +:+
  match j with
  | Some j => "," +:+ pretty j
  | None => ""
  end.

Definition urat_set_command_text (i : guint) (j : option guint) : string :=
  "+URAT=" +:+ pretty i +:+
  match j with
  | Some j => "," +:+ pretty j
  | None => ""
  end.

(** what the round trip needs from the number helper: a group holding one
    of the digits 0..6 is read as that number, a group that took no part in
    the match is not read *)
Definition reads_urat_values `{MMHelpers} : Prop :=
  (∀ (match_info : GMatchInfo) (n : nat) (v : guint),
      v < 7 → match_info !! n = Some (pretty v) →
      mm_get_uint_from_match_info match_info n = Some v)
  ∧ (∀ (match_info : GMatchInfo) (n : nat),
      match_info !! n = None → mm_get_uint_from_match_info match_info n = None).

(** what C2 asks of every returned combination *)
Definition good_combination (c : MMModemModeCombination) : Prop :=
  allowed c ∈ ublox_combinations
  ∧ (preferred c = MM_MODEM_MODE_NONE
     ∨ (single_mode (preferred c) ∧ mode_subset (preferred c) (allowed c))).

(** the groups of a response and the two arrays read from them *)
Definition urat_test_split `{MMHelpers} (response : string) : list string :=
  mm_split_string_groups (mm_strip_tag response "+URAT:").

Definition ALL_MODES : MMModemMode :=
  N.lor (N.lor MM_MODEM_MODE_2G MM_MODEM_MODE_3G) MM_MODEM_MODE_4G.

(** the table of C6, read from its words: which modes a model loses *)
Definition loses_2G (model : string) : bool :=
  (String.eqb model "TOBY-L201" || String.eqb model "TOBY-L220"
   || String.eqb model "MPCI-L201"
   || String.eqb model "SARA-U270-53S" || String.eqb model "SARA-U280")%bool.

Definition loses_4G (model : string) : bool :=
  (String.prefix "LISA-U" model || String.prefix "SARA-U" model)%bool.

Definition model_mask (model : string) : MMModemMode :=
  N.lor (N.lor (if loses_2G model then 0 else MM_MODEM_MODE_2G) MM_MODEM_MODE_3G)
        (if loses_4G model then 0 else MM_MODEM_MODE_4G).

(** the six conditional stores of the success path *)
Definition uipaddr_stores (out_cid out_if_name out_ipv4_address out_ipv4_subnet
                           out_ipv6_global_address out_ipv6_link_local_address : option nat)
           (cid : guint)
           (if_name ipv4_address ipv4_subnet
            ipv6_global_address ipv6_link_local_address : option string)
           (mem : gmap nat cell) : gmap nat cell :=
  store_if out_ipv6_link_local_address (Cell_string ipv6_link_local_address)
    (store_if out_ipv6_global_address (Cell_string ipv6_global_address)
       (store_if out_ipv4_subnet (Cell_string ipv4_subnet)
          (store_if out_ipv4_address (Cell_string ipv4_address)
             (store_if out_if_name (Cell_string if_name)
                (store_if out_cid (Cell_guint cid) mem))))).

(** a string that is read only through a given out pointer *)
Definition fetched_if `{MMHelpers} (p : option nat) (match_info : GMatchInfo) (n : nat) : option string :=
  match p with
  | Some _ => mm_get_string_unquoted_from_match_info match_info n
  | None => None
  end.

(** C8 as it is worded: the finish function mirrors the parent's finish,
    TRUE exactly when the parent succeeded and the parent's error
    otherwise *)
Definition enabling_passes_parent_outcome : Prop :=
  ∀ env : Mbim.Environment,
    let r := Mbim.enabling_started_finish (Mbim.enabling_started env).2 in
    retval r = retval (Mbim.parent_enabling_result env)
    ∧ (retval (Mbim.parent_enabling_result env) = false →
       error r = error (Mbim.parent_enabling_result env)).

(** an environment whose parent fails to enable *)
Definition failing_parent : Mbim.Environment :=
  Mbim.mkEnv (Some (Mbim.mkPort true)) None
        (mkRet false None (Some (core_error MM_CORE_ERROR_FAILED "no primary AT port")))
        (mkPtrRet None None).

(** the combinations that the inner loop of the URAT=? parser adds for an
    allowed mask: one for each preferred value that is in range, names a
    single mode and shares a mode with the mask, in the order of the values *)
Definition preferred_combinations (mask : MMModemMode) (preferred_values : list guint)
  : list MMModemModeCombination :=
  flat_map (λ pv,
              if (pv <? 7) && (mm_count_bits_set (ublox_combination pv) =? 1)
                 && negb (N.land mask (ublox_combination pv) =? 0)
              then [mkComb mask (ublox_combination pv)]
              else [])
           preferred_values.

(** the array of the URAT=? parser, said at once: for each selected value in
    range, the combination without a preferred mode and then, unless the
    mask is a single mode or there is no preferred array, its preferred
    combinations *)
Definition expected_combinations (selected_values : list guint)
           (preferred_values : option (list guint)) : list MMModemModeCombination :=
  flat_map (λ sv,
              if 7 <=? sv then []
              else
                mkComb (ublox_combination sv) MM_MODEM_MODE_NONE
                :: (if mm_count_bits_set (ublox_combination sv) =? 1 then []
                    else match preferred_values with
                         | None => []
                         | Some pvs => preferred_combinations (ublox_combination sv) pvs
                         end))
           selected_values.

(** the command text of a pair of masks, empty when the builder fails *)
Definition urat_command_of (pair : MMModemMode * MMModemMode) : string :=
  default "" (pointer (mm_ublox_build_urat_set_command pair.1 pair.2)).

(** the pairs the builder accepts *)
Definition buildable_pairs : list (MMModemMode * MMModemMode) :=
  list_prod ublox_combinations (MM_MODEM_MODE_NONE :: ublox_combinations).

Definition pair_eqb (x y : MMModemMode * MMModemMode) : bool :=
  (x.1 =? y.1) && (x.2 =? y.2).

(** * Proofs *)

(** ** The matcher on lines of a known shape *)

Lemma strip_prefix_app (text s : string) : strip_prefix text (text +:+ s) = Some s.
Proof.
  induction text as [|a text IH]; simpl; [reflexivity|].
  rewrite Ascii.eqb_refl. exact IH.
Qed.

Lemma strip_prefix_other_start (a : ascii) (text s : string) :
  starts_with (Ascii.eqb a) s = false → strip_prefix (String a text) s = None.
Proof.
  destruct s as [|c s']; [reflexivity|]. cbn [starts_with strip_prefix].
  intros ->. reflexivity.
Qed.

Lemma string_length_app (a b : string) :
  String.length (a +:+ b) = (String.length a + String.length b)%nat.
Proof. induction a as [|c a IH]; simpl; [reflexivity|]. rewrite IH. reflexivity. Qed.

Lemma consumed_app (d rest : string) : consumed (d +:+ rest) rest = d.
Proof.
  unfold consumed. rewrite string_length_app.
  replace (String.length d + String.length rest - String.length rest)%nat
    with (String.length d) by lia.
  induction d as [|c d IH]; simpl.
  - destruct rest; reflexivity.
  - f_equal. exact IH.
Qed.

Section Engine.
Context {A : Type}.
Implicit Types (k : string → GMatchInfo → option A) (caps : GMatchInfo).

(** a whole run is taken when the continuation accepts what follows it *)
Lemma greedy_run (cls : ascii → bool) (d rest : string) (k : string → option A) (x : A) :
  all_chars cls d = true → starts_with cls rest = false →
  k rest = Some x → greedy cls (d +:+ rest) k = Some x.
Proof.
  intros Hd Hrest Hk. induction d as [|c d IH]; simpl.
  - destruct rest as [|c rest']; simpl in *; [exact Hk|]. rewrite Hrest. exact Hk.
  - simpl in Hd. apply andb_prop in Hd as [-> Hd]. rewrite (IH Hd). reflexivity.
Qed.

Lemma rmatch_group_plus (n : nat) (cls : ascii → bool) (d rest : string) caps k (x : A) :
  run_of cls d → starts_with cls rest = false →
  k rest (<[n := d]> caps) = Some x →
  rmatch (Group n (Plus cls)) (d +:+ rest) caps k = Some x.
Proof.
  intros [Hne Hd] Hrest Hk. destruct d as [|c d]; [done|].
  simpl in Hd. apply andb_prop in Hd as [Hc Hd].
  cbn [rmatch]. change (String c d +:+ rest) with (String c (d +:+ rest)).
  cbv beta iota. rewrite Hc.
  apply greedy_run; [exact Hd|exact Hrest|].
  change (String c (d +:+ rest)) with (String c d +:+ rest).
  rewrite consumed_app. exact Hk.
Qed.

Lemma rmatch_plus (cls : ascii → bool) (d rest : string) caps k (x : A) :
  run_of cls d → starts_with cls rest = false →
  k rest caps = Some x →
  rmatch (Plus cls) (d +:+ rest) caps k = Some x.
Proof.
  intros [Hne Hd] Hrest Hk. destruct d as [|c d]; [done|].
  simpl in Hd. apply andb_prop in Hd as [Hc Hd].
  cbn [rmatch]. change (String c d +:+ rest) with (String c (d +:+ rest)).
  cbv beta iota. rewrite Hc.
  apply greedy_run; [exact Hd|exact Hrest|exact Hk].
Qed.

Lemma rmatch_seq (r1 r2 : regex) (s : string) caps k :
  rmatch (Seq r1 r2) s caps k = rmatch r1 s caps (λ s' caps', rmatch r2 s' caps' k).
Proof. reflexivity. Qed.

Lemma rmatch_lit (text s : string) caps k :
  rmatch (Lit text) (text +:+ s) caps k = k s caps.
Proof. cbn [rmatch]. rewrite strip_prefix_app. reflexivity. Qed.

Lemma rmatch_opt_taken (r : regex) (s : string) caps k (x : A) :
  rmatch r s caps k = Some x → rmatch (Opt r) s caps k = Some x.
Proof. intros Hr. cbn [rmatch]. rewrite Hr. reflexivity. Qed.

Lemma rmatch_opt_lit_skipped (text : string) (r : regex) (s : string) caps k :
  strip_prefix text s = None →
  rmatch (Opt (Seq (Lit text) r)) s caps k = k s caps.
Proof. intros Hs. cbn [rmatch]. rewrite Hs. reflexivity. Qed.

End Engine.

Lemma opt_crlf_end (rest : string) (caps : GMatchInfo) :
  rmatch (Opt (Lit CRLF)) rest caps (λ _ caps', Some caps') = Some caps.
Proof. cbn [rmatch]. destruct (strip_prefix CRLF rest); reflexivity. Qed.

Lemma search_here (r : regex) (s : string) (caps : GMatchInfo) :
  match_here r s = Some caps → g_regex_match_full r s = Some caps.
Proof. intros Hm. destruct s; simpl; rewrite Hm; reflexivity. Qed.

Lemma match_here_other_start (a : ascii) (text : string) (r : regex) (c : ascii) (s : string) :
  Ascii.eqb a c = false → match_here (Seq (Lit (String a text)) r) (String c s) = None.
Proof. intros Hc. unfold match_here. cbn [rmatch strip_prefix]. rewrite Hc. reflexivity. Qed.

(** the search passes over text in which the first character of the
    pattern does not occur *)
Lemma search_skip (a : ascii) (text : string) (r : regex) (pre s : string) :
  all_chars (λ c, negb (Ascii.eqb a c)) pre = true →
  g_regex_match_full (Seq (Lit (String a text)) r) (pre +:+ s)
  = g_regex_match_full (Seq (Lit (String a text)) r) s.
Proof.
  intros Hpre. induction pre as [|c pre IH]; [reflexivity|].
  simpl in Hpre. apply andb_prop in Hpre as [Hc Hpre].
  change (String c pre +:+ s) with (String c (pre +:+ s)).
  cbn [g_regex_match_full]. rewrite match_here_other_start by (apply negb_true_iff, Hc).
  apply IH, Hpre.
Qed.

Lemma string_app_empty (s : string) : s +:+ "" = s.
Proof.
  induction s as [|c s IH]; [reflexivity|].
  change (String c s +:+ "") with (String c (s +:+ "")). f_equal. exact IH.
Qed.

(** a pattern that starts with a tag finds nothing in text without [+] *)
Lemma search_no_plus (text : string) (r : regex) (s : string) :
  no_plus s → g_regex_match_full (Seq (Lit (String plus_sign text)) r) s = None.
Proof.
  intros Hs. pose proof (search_skip plus_sign text r s "" Hs) as Hskip.
  rewrite string_app_empty in Hskip. rewrite Hskip. reflexivity.
Qed.

(** what the reference number helper reads is a run of digits *)
Lemma decimal_value_digits (str : string) :
  ∀ num v, decimal_value str num = Some v → all_chars is_digit str = true.
Proof.
  induction str as [|c str IH]; intros num v Hv; [reflexivity|].
  simpl in *. destruct (is_digit c); [|discriminate]. exact (IH _ _ Hv).
Qed.

Lemma get_uint_from_str_run (str : string) (v : guint) :
  mm_get_uint_from_str str = Some v → run_of is_digit str ∧ v <= G_MAXUINT.
Proof.
  unfold mm_get_uint_from_str. destruct str as [|c str]; [discriminate|].
  destruct (decimal_value (String c str) 0) as [num|] eqn:Hd; [|discriminate].
  destruct (N.leb_spec num G_MAXUINT) as [Hle|]; [|discriminate].
  intros [= <-]. split; [|exact Hle]. split; [discriminate|].
  exact (decimal_value_digits _ _ _ Hd).
Qed.

(** +URAT: a,p *)
Lemma urat_line_two (pre da dp rest : string) :
  no_plus pre → run_of is_digit da → run_of is_digit dp →
  starts_with is_digit rest = false →
  g_regex_match_full urat_regex (pre +:+ "+URAT: " +:+ da +:+ "," +:+ dp +:+ rest)
  = Some (<[2%nat := dp]> (<[1%nat := da]> ∅)).
Proof.
  intros Hpre Hda Hdp Hrest. unfold urat_regex. rewrite (search_skip plus_sign) by exact Hpre.
  apply search_here. unfold match_here.
  rewrite rmatch_seq, rmatch_lit, rmatch_seq.
  apply rmatch_group_plus; [exact Hda|reflexivity|].
  rewrite rmatch_seq. apply rmatch_opt_taken.
  rewrite rmatch_seq, rmatch_lit.
  apply rmatch_group_plus; [exact Hdp|exact Hrest|].
  apply opt_crlf_end.
Qed.

(** +URAT: a *)
Lemma urat_line_one (pre da rest : string) :
  no_plus pre → run_of is_digit da →
  starts_with is_digit rest = false → starts_with (Ascii.eqb ",") rest = false →
  g_regex_match_full urat_regex (pre +:+ "+URAT: " +:+ da +:+ rest)
  = Some (<[1%nat := da]> ∅).
Proof.
  intros Hpre Hda Hd Hc. unfold urat_regex. rewrite (search_skip plus_sign) by exact Hpre.
  apply search_here. unfold match_here.
  rewrite rmatch_seq, rmatch_lit, rmatch_seq.
  apply rmatch_group_plus; [exact Hda|exact Hd|].
  rewrite rmatch_seq, rmatch_opt_lit_skipped by (apply strip_prefix_other_start, Hc).
  apply opt_crlf_end.
Qed.

(** +UPINCNT: p1,p2,p3,p4 *)
Lemma upincnt_line (pre d1 d2 d3 d4 rest : string) :
  no_plus pre →
  run_of is_digit d1 → run_of is_digit d2 → run_of is_digit d3 → run_of is_digit d4 →
  starts_with is_digit rest = false →
  g_regex_match_full upincnt_regex
    (pre +:+ "+UPINCNT: " +:+ d1 +:+ "," +:+ d2 +:+ "," +:+ d3 +:+ "," +:+ d4 +:+ rest)
  = Some (<[4%nat := d4]> (<[3%nat := d3]> (<[2%nat := d2]> (<[1%nat := d1]> ∅)))).
Proof.
  intros Hpre H1 H2 H3 H4 Hrest. unfold upincnt_regex.
  rewrite (search_skip plus_sign) by exact Hpre.
  apply search_here. unfold match_here.
  rewrite rmatch_seq, rmatch_lit, rmatch_seq.
  apply rmatch_group_plus; [exact H1|reflexivity|].
  rewrite rmatch_seq, rmatch_lit, rmatch_seq.
  apply rmatch_group_plus; [exact H2|reflexivity|].
  rewrite rmatch_seq, rmatch_lit, rmatch_seq.
  apply rmatch_group_plus; [exact H3|reflexivity|].
  rewrite rmatch_seq, rmatch_lit, rmatch_seq.
  apply rmatch_group_plus; [exact H4|exact Hrest|].
  apply opt_crlf_end.
Qed.

(** +CFUN: v *)
Lemma cfun_line_one (pre dv rest : string) :
  no_plus pre → run_of is_digit dv →
  starts_with is_digit rest = false → starts_with (Ascii.eqb ",") rest = false →
  g_regex_match_full cfun_regex (pre +:+ "+CFUN: " +:+ dv +:+ rest)
  = Some (<[1%nat := dv]> ∅).
Proof.
  intros Hpre Hdv Hd Hc. unfold cfun_regex. rewrite (search_skip plus_sign) by exact Hpre.
  apply search_here. unfold match_here.
  rewrite rmatch_seq, rmatch_lit, rmatch_seq.
  apply rmatch_group_plus; [exact Hdv|exact Hd|].
  rewrite rmatch_seq, rmatch_opt_lit_skipped by (apply strip_prefix_other_start, Hc).
  apply opt_crlf_end.
Qed.

(** +CFUN: v,n *)
Lemma cfun_line_two (pre dv dn rest : string) :
  no_plus pre → run_of is_digit dv → run_of is_digit dn →
  starts_with is_digit rest = false →
  g_regex_match_full cfun_regex (pre +:+ "+CFUN: " +:+ dv +:+ "," +:+ dn +:+ rest)
  = Some (<[1%nat := dv]> ∅).
Proof.
  intros Hpre Hdv Hdn Hrest. unfold cfun_regex. rewrite (search_skip plus_sign) by exact Hpre.
  apply search_here. unfold match_here.
  rewrite rmatch_seq, rmatch_lit, rmatch_seq.
  apply rmatch_group_plus; [exact Hdv|reflexivity|].
  rewrite rmatch_seq. apply rmatch_opt_taken.
  rewrite rmatch_seq, rmatch_lit.
  apply rmatch_plus; [exact Hdn|exact Hrest|].
  apply opt_crlf_end.
Qed.

(** ** Masks *)

Lemma count_bits_positive_ge_1 (p : positive) : 1 <= count_bits_positive p.
Proof. induction p; simpl; lia. Qed.

Lemma count_bits_set_single (mode : MMModemMode) :
  mm_count_bits_set mode = 1 ↔ single_mode mode.
Proof.
  unfold single_mode. split.
  - destruct mode as [|p]; simpl; [lia|].
    induction p as [p IH|p IH|]; simpl; intros Hc.
    + pose proof (count_bits_positive_ge_1 p). lia.
    + destruct (IH Hc) as [bit Hbit]. exists (N.succ bit).
      rewrite N.shiftl_1_l in *. rewrite N.pow_succ_r'. lia.
    + exists 0. reflexivity.
  - intros [bit ->]. rewrite N.shiftl_1_l.
    induction bit as [|bit IH] using N.peano_ind; [reflexivity|].
    rewrite N.pow_succ_r'.
    destruct (2 ^ bit) as [|p] eqn:E.
    + pose proof (N.pow_nonzero 2 bit). lia.
    + simpl in *. exact IH.
Qed.

Lemma single_mode_land_subset (mode mask : MMModemMode) :
  single_mode mode → N.land mask mode ≠ 0 → mode_subset mode mask.
Proof.
  intros [bit ->] Hne. unfold mode_subset. rewrite N.shiftl_1_l in *.
  destruct (N.testbit mask bit) eqn:Hb.
  - apply N.bits_inj. intros n. rewrite N.land_spec, N.pow2_bits_eqb.
    destruct (N.eqb_spec bit n) as [->|]; [now rewrite Hb|reflexivity].
  - exfalso. apply Hne. apply N.bits_inj. intros n.
    rewrite N.land_spec, N.pow2_bits_eqb, N.bits_0.
    destruct (N.eqb_spec bit n) as [->|]; [now rewrite Hb|apply andb_false_r].
Qed.

Lemma mode_subset_land_nonzero (mode mask : MMModemMode) :
  single_mode mode → mode_subset mode mask → N.land mask mode ≠ 0.
Proof.
  intros [bit ->] Hsub. unfold mode_subset in Hsub.
  rewrite N.land_comm, Hsub, N.shiftl_1_l. apply N.pow_nonzero. lia.
Qed.

Lemma N_ublox_combinations_7 : N_ublox_combinations = 7.
Proof. reflexivity. Qed.

Lemma below_7_cases (value : guint) :
  value < 7 →
  value = 0 ∨ value = 1 ∨ value = 2 ∨ value = 3 ∨ value = 4 ∨ value = 5 ∨ value = 6.
Proof. lia. Qed.

Lemma ublox_combination_lookup (value : guint) :
  value < 7 → ublox_combinations !! N.to_nat value = Some (ublox_combination value).
Proof.
  intros Hv.
  destruct (below_7_cases value Hv) as [->|[->|[->|[->|[->|[->| ->]]]]]]; reflexivity.
Qed.

Lemma ublox_combination_nonzero (value : guint) :
  value < 7 → ublox_combination value ≠ MM_MODEM_MODE_NONE.
Proof.
  intros Hv.
  destruct (below_7_cases value Hv) as [->|[->|[->|[->|[->|[->| ->]]]]]]; vm_compute; discriminate.
Qed.

(** ** +UPINCNT *)

Section Upincnt.
Context `{MMHelpers}.

(** a matched line whose four numbers can be read is reported with them *)
Lemma upincnt_matched_line (response : string) (match_info : GMatchInfo)
      (p1 p2 p3 p4 : guint) :
  g_regex_match_full upincnt_regex response = Some match_info →
  mm_get_uint_from_match_info match_info 1 = Some p1 →
  mm_get_uint_from_match_info match_info 2 = Some p2 →
  mm_get_uint_from_match_info match_info 3 = Some p3 →
  mm_get_uint_from_match_info match_info 4 = Some p4 →
  mm_ublox_parse_upincnt_response response = ret_true (p1, p2, p3, p4).
Proof.
  intros Hm H1 H2 H3 H4. unfold mm_ublox_parse_upincnt_response.
  rewrite Hm, H1, H2, H3, H4. reflexivity.
Qed.

(** C1, at the responses that hold no +UPINCNT line: the parser does not
    fail there; it returns TRUE, sets no error and stores zero in all four
    counters, because [success] starts as TRUE and the branch that raises
    MM_CORE_ERROR_FAILED is never taken. *)
Theorem upincnt_no_line_returns_true (response : string) :
  g_regex_match_full upincnt_regex response = None →
  mm_ublox_parse_upincnt_response response = mkRet true (Some (0, 0, 0, 0)) None.
Proof.
  intros Hm. unfold mm_ublox_parse_upincnt_response. rewrite Hm. reflexivity.
Qed.

End Upincnt.

Lemma upincnt_no_line_returns_true_witness :
  g_regex_match_full upincnt_regex "ERROR" = None
  ∧ @mm_ublox_parse_upincnt_response reference_helpers "ERROR"
    = mkRet true (Some (0, 0, 0, 0)) None.
Proof.
  split; [reflexivity|].
  apply (@upincnt_no_line_returns_true reference_helpers "ERROR"). reflexivity.
Defined.

(** with the reference helpers: a line of four numbers that each fit a
    [guint] is reported with those numbers *)
Lemma upincnt_reference_line (pre d1 d2 d3 d4 rest : string) (p1 p2 p3 p4 : guint) :
  no_plus pre →
  mm_get_uint_from_str d1 = Some p1 → mm_get_uint_from_str d2 = Some p2 →
  mm_get_uint_from_str d3 = Some p3 → mm_get_uint_from_str d4 = Some p4 →
  starts_with is_digit rest = false →
  @mm_ublox_parse_upincnt_response reference_helpers
    (pre +:+ "+UPINCNT: " +:+ d1 +:+ "," +:+ d2 +:+ "," +:+ d3 +:+ "," +:+ d4 +:+ rest)
  = ret_true (p1, p2, p3, p4).
Proof.
  intros Hpre H1 H2 H3 H4 Hrest.
  apply (@upincnt_matched_line reference_helpers _
           (<[4%nat := d4]> (<[3%nat := d3]> (<[2%nat := d2]> (<[1%nat := d1]> ∅))))).
  - apply upincnt_line; try assumption;
      eapply proj1, get_uint_from_str_run; eassumption.
  - simpl. unfold g_match_info_fetch.
    rewrite !lookup_insert_ne by lia. rewrite lookup_insert_eq. exact H1.
  - simpl. unfold g_match_info_fetch.
    rewrite !lookup_insert_ne by lia. rewrite lookup_insert_eq. exact H2.
  - simpl. unfold g_match_info_fetch.
    rewrite !lookup_insert_ne by lia. rewrite lookup_insert_eq. exact H3.
  - simpl. unfold g_match_info_fetch. rewrite lookup_insert_eq. exact H4.
Qed.

Example upincnt_reference_example :
  @mm_ublox_parse_upincnt_response reference_helpers ("+UPINCNT: 3,3,10,10" +:+ CRLF)
  = ret_true (3, 3, 10, 10).
Proof. vm_compute. reflexivity. Qed.

(** with the reference helpers: a number too large for a [guint] makes the
    guard after the match fail with MM_CORE_ERROR_UNSUPPORTED *)
Example upincnt_reference_too_large :
  @mm_ublox_parse_upincnt_response reference_helpers "+UPINCNT: 4294967296,3,10,10"
  = ret_false (Some (core_error MM_CORE_ERROR_UNSUPPORTED "Couldn't parse PIN attempts")).
Proof. vm_compute. reflexivity. Qed.

(** ** CFUN? *)

Section Cfun.
Context `{MMHelpers}.

Lemma cfun_matched_value (response : string) (match_info : GMatchInfo) (v : guint) :
  g_regex_match_full cfun_regex response = Some match_info →
  mm_get_uint_from_match_info match_info 1 = Some v →
  mm_ublox_parse_cfun_response response =
    match cfun_state_of_value v with
    | MM_MODEM_POWER_STATE_UNKNOWN => ret_false None
    | state => ret_true state
    end.
Proof.
  intros Hm Hv. unfold mm_ublox_parse_cfun_response. rewrite Hm, Hv.
  destruct (cfun_state_of_value v); reflexivity.
Qed.

(** the values the claim lists are decoded as it says *)
Lemma cfun_known_values (response : string) (match_info : GMatchInfo) (v : guint) :
  g_regex_match_full cfun_regex response = Some match_info →
  mm_get_uint_from_match_info match_info 1 = Some v →
  (v = 1 → mm_ublox_parse_cfun_response response = ret_true MM_MODEM_POWER_STATE_ON)
  ∧ (v = 0 ∨ v = 4 ∨ v = 19 →
     mm_ublox_parse_cfun_response response = ret_true MM_MODEM_POWER_STATE_LOW).
Proof.
  intros Hm Hv. rewrite (cfun_matched_value _ _ _ Hm Hv).
  split; [intros ->|intros [->|[->| ->]]]; reflexivity.
Qed.

(** any other value that was read: FALSE, and the caller's error is left
    unset *)
Lemma cfun_other_value (response : string) (match_info : GMatchInfo) (v : guint) :
  g_regex_match_full cfun_regex response = Some match_info →
  mm_get_uint_from_match_info match_info 1 = Some v →
  v ≠ 1 → v ≠ 0 → v ≠ 4 → v ≠ 19 →
  mm_ublox_parse_cfun_response response = mkRet false None None.
Proof.
  intros Hm Hv H1 H0 H4 H19. rewrite (cfun_matched_value _ _ _ Hm Hv).
  unfold cfun_state_of_value.
  destruct (N.eqb_spec v 1); [done|]. destruct (N.eqb_spec v 0); [done|].
  destruct (N.eqb_spec v 4); [done|]. destruct (N.eqb_spec v 19); [done|].
  reflexivity.
Qed.

(** C9, at the responses that do not match the pattern: the parser returns
    FALSE but the caller's error stays unset; the MM_CORE_ERROR_FAILED error
    is built in a local variable and never propagated. *)
Theorem cfun_no_match_error_unset (response : string) :
  g_regex_match_full cfun_regex response = None →
  mm_ublox_parse_cfun_response response = mkRet false None None.
Proof.
  intros Hm. unfold mm_ublox_parse_cfun_response. rewrite Hm. reflexivity.
Qed.

End Cfun.

Lemma cfun_no_match_error_unset_witness :
  g_regex_match_full cfun_regex "ERROR" = None
  ∧ @mm_ublox_parse_cfun_response reference_helpers "ERROR" = mkRet false None None.
Proof.
  split; [reflexivity|].
  apply (@cfun_no_match_error_unset reference_helpers "ERROR"). reflexivity.
Defined.

(** with the reference helpers: the line +CFUN: v, with or without a second
    number, is decoded by the value [v] *)
Lemma cfun_reference_line (pre dv rest : string) (v : guint) :
  no_plus pre → mm_get_uint_from_str dv = Some v →
  starts_with is_digit rest = false → starts_with (Ascii.eqb ",") rest = false →
  @mm_ublox_parse_cfun_response reference_helpers (pre +:+ "+CFUN: " +:+ dv +:+ rest) =
    match cfun_state_of_value v with
    | MM_MODEM_POWER_STATE_UNKNOWN => ret_false None
    | state => ret_true state
    end.
Proof.
  intros Hpre Hv Hd Hc.
  apply (@cfun_matched_value reference_helpers _ (<[1%nat := dv]> ∅)).
  - apply cfun_line_one; try assumption. eapply proj1, get_uint_from_str_run; eassumption.
  - simpl. unfold g_match_info_fetch. rewrite lookup_insert_eq. exact Hv.
Qed.

Lemma cfun_reference_line_two (pre dv dn rest : string) (v : guint) :
  no_plus pre → mm_get_uint_from_str dv = Some v → run_of is_digit dn →
  starts_with is_digit rest = false →
  @mm_ublox_parse_cfun_response reference_helpers
    (pre +:+ "+CFUN: " +:+ dv +:+ "," +:+ dn +:+ rest) =
    match cfun_state_of_value v with
    | MM_MODEM_POWER_STATE_UNKNOWN => ret_false None
    | state => ret_true state
    end.
Proof.
  intros Hpre Hv Hdn Hrest.
  apply (@cfun_matched_value reference_helpers _ (<[1%nat := dv]> ∅)).
  - apply cfun_line_two; try assumption. eapply proj1, get_uint_from_str_run; eassumption.
  - simpl. unfold g_match_info_fetch. rewrite lookup_insert_eq. exact Hv.
Qed.

(** a response without any tag is not matched, whatever the helpers *)
Lemma cfun_no_plus_error_unset `{MMHelpers} (response : string) :
  no_plus response → mm_ublox_parse_cfun_response response = mkRet false None None.
Proof.
  intros Hr. unfold mm_ublox_parse_cfun_response, cfun_regex.
  rewrite search_no_plus by exact Hr. reflexivity.
Qed.

(** with the reference helpers, +CFUN: 2 is a matched line with another
    value *)
Example cfun_value_2_error_unset :
  @mm_ublox_parse_cfun_response reference_helpers "+CFUN: 2" = mkRet false None None.
Proof. vm_compute. reflexivity. Qed.

(** ** URAT? *)

Section UratRead.
Context `{MMHelpers}.

(** the parser on a matched response, by what the helper reads from the two
    groups *)
Lemma urat_read_matched (response : string) (match_info : GMatchInfo) :
  g_regex_match_full urat_regex response = Some match_info →
  mm_ublox_parse_urat_read_response response =
    match mm_get_uint_from_match_info match_info 1 with
    | None =>
        ret_false (Some (core_error MM_CORE_ERROR_FAILED "Couldn't read AcT selected value"))
    | Some va =>
        if 7 <=? va then
          ret_false (Some (core_error MM_CORE_ERROR_FAILED
                             ("Unexpected AcT selected value: " +:+ pretty va)))
        else
          match mm_get_uint_from_match_info match_info 2 with
          | None => ret_true (ublox_combination va, MM_MODEM_MODE_NONE)
          | Some vp =>
              if 7 <=? vp then
                ret_false (Some (core_error MM_CORE_ERROR_FAILED
                                   ("Unexpected AcT preferred value: " +:+ pretty vp)))
              else if negb (mm_count_bits_set (ublox_combination vp) =? 1) then
                ret_false (Some (core_error MM_CORE_ERROR_FAILED
                                   "AcT preferred value should be a single AcT"))
              else if N.land (ublox_combination va) (ublox_combination vp) =? 0 then
                ret_false (Some (core_error MM_CORE_ERROR_FAILED
                                   "AcT preferred value not a subset of the allowed value"))
              else ret_true (ublox_combination va, ublox_combination vp)
          end
    end.
Proof.
  intros Hm. unfold mm_ublox_parse_urat_read_response. rewrite Hm.
  rewrite N_ublox_combinations_7.
  destruct (mm_get_uint_from_match_info match_info 1) as [va|]; [|reflexivity].
  destruct (N.leb_spec 7 va) as [|Hva]; [reflexivity|].
  pose proof (ublox_combination_nonzero va Hva) as Hnz.
  assert ((ublox_combination va =? MM_MODEM_MODE_NONE) = false) as Hz
      by (apply N.eqb_neq; exact Hnz).
  destruct (mm_get_uint_from_match_info match_info 2) as [vp|].
  - destruct (7 <=? vp); [reflexivity|].
    destruct (negb _); [reflexivity|].
    destruct (N.land _ _ =? 0); [reflexivity|].
    cbv zeta beta. rewrite Hz. reflexivity.
  - cbv zeta beta. rewrite Hz. reflexivity.
Qed.

(** C4, amended: on a response that matches the URAT pattern, with [a] and
    [p] the numbers that [mm_get_uint_from_match_info] reads from the first
    and the second field, a second field that it cannot read counting as
    absent like one that is missing, the parser returns TRUE exactly when
    [a] is read and within 0..6 and, if [p] is read, [p] is within 0..6, its
    table entry is a single mode and that mode is within the entry of [a];
    otherwise it returns FALSE with a MM_CORE_ERROR_FAILED error and stores
    nothing; on success it stores the entry of [a] and the entry of [p], or
    MM_MODEM_MODE_NONE when [p] is absent or not read. *)
Theorem urat_read_response_matched (response : string) (match_info : GMatchInfo) :
  g_regex_match_full urat_regex response = Some match_info →
  let r := mm_ublox_parse_urat_read_response response in
  let a := mm_get_uint_from_match_info match_info 1 in
  let p := mm_get_uint_from_match_info match_info 2 in
  (retval r = true ↔ urat_read_accepts a p)
  ∧ (retval r = false →
     out r = None ∧ ∃ e, error r = Some e ∧ is_core_error MM_CORE_ERROR_FAILED e)
  ∧ (retval r = true →
     ∃ va, a = Some va ∧ error r = None
           ∧ out r = Some (ublox_combination va,
                           match p with
                           | Some vp => ublox_combination vp
                           | None => MM_MODEM_MODE_NONE
                           end)).
Proof.
  intros Hm r a p. subst r a p. rewrite (urat_read_matched _ _ Hm).
  unfold urat_read_accepts.
  destruct (mm_get_uint_from_match_info match_info 1) as [va|].
  2:{ split; [|split]; simpl; try discriminate.
      - split; [discriminate|]. intros (? & ? & _). discriminate.
      - intros _. split; [done|]. eexists. split; [done|]. split; reflexivity. }
  destruct (N.leb_spec 7 va) as [Hva|Hva].
  { split; [|split]; simpl; try discriminate.
    - split; [discriminate|]. intros (? & [= <-] & ? & _). lia.
    - intros _. split; [done|]. eexists. split; [done|]. split; reflexivity. }
  destruct (mm_get_uint_from_match_info match_info 2) as [vp|].
  2:{ split; [|split]; simpl; try discriminate.
      - split; [|done]. intros _. exists va. done.
      - intros _. exists va. done. }
  destruct (N.leb_spec 7 vp) as [Hvp|Hvp].
  { split; [|split]; simpl; try discriminate.
    - split; [discriminate|]. intros (? & _ & _ & ? & _). lia.
    - intros _. split; [done|]. eexists. split; [done|]. split; reflexivity. }
  destruct (N.eqb_spec (mm_count_bits_set (ublox_combination vp)) 1) as [Hc|Hc]; simpl.
  2:{ split; [|split]; simpl; try discriminate.
      - split; [discriminate|]. intros (? & _ & _ & _ & Hs & _).
        apply count_bits_set_single in Hs. contradiction.
      - intros _. split; [done|]. eexists. split; [done|]. split; reflexivity. }
  apply count_bits_set_single in Hc.
  destruct (N.eqb_spec (N.land (ublox_combination va) (ublox_combination vp)) 0) as [Hl|Hl].
  { split; [|split]; simpl; try discriminate.
    - split; [discriminate|]. intros (va' & [= <-] & _ & _ & _ & Hsub).
      exfalso. exact (mode_subset_land_nonzero _ _ Hc Hsub Hl).
    - intros _. split; [done|]. eexists. split; [done|]. split; reflexivity. }
  split; [|split]; simpl; try discriminate.
  - split; [|done]. intros _. exists va. repeat split; try done.
    apply single_mode_land_subset; assumption.
  - intros _. exists va. done.
Qed.

End UratRead.

Lemma urat_read_response_matched_witness :
  let r := @mm_ublox_parse_urat_read_response reference_helpers "+URAT: 1,2" in
  retval r = true ∧ out r = Some (ublox_combination 1, ublox_combination 2).
Proof.
  destruct (@urat_read_response_matched reference_helpers "+URAT: 1,2"
              {[ 1%nat := "1"; 2%nat := "2" ]}) as (_ & _ & Hout).
  { vm_compute. reflexivity. }
  split; [reflexivity|].
  destruct (Hout eq_refl) as (va & Ha & _ & Ho).
  vm_compute in Ha. injection Ha as <-. exact Ho.
Defined.

(** with the reference helpers: a second field too large for a [guint] is
    not read, and the response is taken as one without a preferred mode *)
Example urat_read_second_field_too_large :
  @mm_ublox_parse_urat_read_response reference_helpers "+URAT: 1,4294967296"
  = ret_true (ublox_combination 1, MM_MODEM_MODE_NONE).
Proof. vm_compute. reflexivity. Qed.

(** C4 does not hold as worded: in +URAT: 1,4294967296 the second field is
    present and spells a number outside 0..6, yet the parser, with the
    reference helpers, returns TRUE; the number does not fit a [guint], the
    helper does not read it, and the code takes the field as absent. *)
Lemma urat_read_present_unread_field_accepted :
  ¬ @urat_read_as_worded reference_helpers.
Proof.
  intros Hworded.
  assert (g_regex_match_full urat_regex "+URAT: 1,4294967296"
          = Some (<[2%nat := "4294967296"]> (<[1%nat := "1"]> (∅ : GMatchInfo)))) as Hm
      by (vm_compute; reflexivity).
  destruct (Hworded _ _ Hm) as [Hiff _].
  cbv zeta in Hiff. apply proj1 in Hiff.
  assert (field_number (<[2%nat := "4294967296"]> (<[1%nat := "1"]> (∅ : GMatchInfo))) 2
          = Some 4294967296) as Hfield by (vm_compute; reflexivity).
  rewrite Hfield in Hiff.
  destruct (Hiff ltac:(vm_compute; reflexivity)) as (va & _ & _ & Hlt & _).
  lia.
Qed.

Example urat_read_not_a_subset :
  retval (@mm_ublox_parse_urat_read_response reference_helpers "+URAT: 0,2") = false.
Proof. vm_compute. reflexivity. Qed.

(** ** URAT=X and back *)

Lemma reference_helpers_read_urat_values : @reads_urat_values reference_helpers.
Proof.
  split.
  - intros match_info n v Hv Hg. simpl. unfold g_match_info_fetch. rewrite Hg.
    destruct (below_7_cases v Hv) as [->|[->|[->|[->|[->|[->| ->]]]]]]; reflexivity.
  - intros match_info n Hg. simpl. unfold g_match_info_fetch. rewrite Hg. reflexivity.
Qed.

Lemma in_ublox_combinations (mode : MMModemMode) :
  mode ∈ ublox_combinations →
  mode = 2 ∨ mode = 6 ∨ mode = 4 ∨ mode = 8 ∨ mode = 14 ∨ mode = 10 ∨ mode = 12.
Proof.
  unfold ublox_combinations. rewrite !elem_of_cons, elem_of_nil.
  vm_compute (N.lor _ _). vm_compute MM_MODEM_MODE_2G.
  vm_compute MM_MODEM_MODE_3G. vm_compute MM_MODEM_MODE_4G. tauto.
Qed.

Lemma single_mode_in_table (mode : MMModemMode) :
  mode ∈ ublox_combinations → single_mode mode → mode = 2 ∨ mode = 4 ∨ mode = 8.
Proof.
  intros Hin Hs. apply count_bits_set_single in Hs.
  destruct (in_ublox_combinations mode Hin) as [->|[->|[->|[->|[->|[->| ->]]]]]];
    vm_compute in Hs; try discriminate; tauto.
Qed.

(** tries the table position [i] for the allowed mask, with every position
    of a single mode for the preferred one *)
Ltac urat_pair_at lemma i j :=
  exists i, (Some j);
  (split; [reflexivity|]); (split; [reflexivity|]);
  (split; [vm_compute; reflexivity|]);
  rewrite lemma by first [lia | reflexivity | (vm_compute; discriminate)];
  reflexivity.

Section UratRoundTrip.
Context `{MMHelpers}.
Hypothesis Hreads : reads_urat_values.

Lemma urat_read_text_one (i : guint) :
  i < 7 →
  mm_ublox_parse_urat_read_response (urat_read_response_text i None)
  = ret_true (ublox_combination i, MM_MODEM_MODE_NONE).
Proof.
  intros Hi. destruct Hreads as [Hsome Hnone].
  assert (g_regex_match_full urat_regex (urat_read_response_text i None)
          = Some {[ 1%nat := pretty i ]}) as Hm
      by (destruct (below_7_cases i Hi) as [->|[->|[->|[->|[->|[->| ->]]]]]];
          vm_compute; reflexivity).
  rewrite (urat_read_matched _ _ Hm).
  rewrite (Hsome _ 1%nat i Hi) by apply lookup_singleton_eq.
  rewrite (Hnone _ 2%nat) by (apply lookup_singleton_ne; lia).
  destruct (N.leb_spec 7 i); [lia|reflexivity].
Qed.

Lemma urat_read_text_two (i j : guint) :
  i < 7 → j < 7 →
  mm_count_bits_set (ublox_combination j) = 1 →
  N.land (ublox_combination i) (ublox_combination j) ≠ 0 →
  mm_ublox_parse_urat_read_response (urat_read_response_text i (Some j))
  = ret_true (ublox_combination i, ublox_combination j).
Proof.
  intros Hi Hj Hc Hl. destruct Hreads as [Hsome _].
  assert (g_regex_match_full urat_regex (urat_read_response_text i (Some j))
          = Some (<[ 2%nat := pretty j ]> {[ 1%nat := pretty i ]})) as Hm
      by (destruct (below_7_cases i Hi) as [->|[->|[->|[->|[->|[->| ->]]]]]];
          destruct (below_7_cases j Hj) as [->|[->|[->|[->|[->|[->| ->]]]]]];
          vm_compute; reflexivity).
  rewrite (urat_read_matched _ _ Hm).
  rewrite (Hsome _ 1%nat i Hi)
    by (rewrite lookup_insert_ne by lia; apply lookup_singleton_eq).
  rewrite (Hsome _ 2%nat j Hj) by apply lookup_insert_eq.
  destruct (N.leb_spec 7 i); [lia|]. destruct (N.leb_spec 7 j); [lia|].
  rewrite Hc. simpl. destruct (N.eqb_spec (N.land (ublox_combination i) (ublox_combination j)) 0);
    [contradiction|reflexivity].
Qed.

Local Ltac urat_pair i :=
  first [ urat_pair_at urat_read_text_two i 0
        | urat_pair_at urat_read_text_two i 2
        | urat_pair_at urat_read_text_two i 3 ].

(** C5: for [allowed] in the table and [preferred] either none or a single
    mode of the table within [allowed], the builder succeeds with +URAT=i or
    +URAT=i,j where i and j are the table positions of [allowed] and
    [preferred], and the URAT? parser reads (allowed, preferred) back from
    +URAT: i or +URAT: i,j. *)
Theorem urat_build_then_read (allowed preferred : MMModemMode) :
  allowed ∈ ublox_combinations →
  preferred = MM_MODEM_MODE_NONE
  ∨ (single_mode preferred ∧ preferred ∈ ublox_combinations
     ∧ mode_subset preferred allowed) →
  ∃ (i : guint) (j : option guint),
    ublox_combinations !! N.to_nat i = Some allowed
    ∧ match j with
      | None => preferred = MM_MODEM_MODE_NONE
      | Some j => ublox_combinations !! N.to_nat j = Some preferred
      end
    ∧ mm_ublox_build_urat_set_command allowed preferred
      = mkPtrRet (Some (urat_set_command_text i j)) None
    ∧ mm_ublox_parse_urat_read_response (urat_read_response_text i j)
      = ret_true (allowed, preferred).
Proof.
  intros Hin [->|(Hs & Hpin & Hsub)].
  - destruct (in_ublox_combinations allowed Hin) as [->|[->|[->|[->|[->|[->| ->]]]]]];
      [exists 0|exists 1|exists 2|exists 3|exists 4|exists 5|exists 6];
      exists None; (split; [reflexivity|]); (split; [reflexivity|]);
      (split; [vm_compute; reflexivity|]);
      rewrite urat_read_text_one by lia; reflexivity.
  - unfold mode_subset in Hsub.
    destruct (in_ublox_combinations allowed Hin) as [->|[->|[->|[->|[->|[->| ->]]]]]];
      destruct (single_mode_in_table preferred Hpin Hs) as [->|[->| ->]];
      try (vm_compute in Hsub; discriminate);
      first [ urat_pair 0 | urat_pair 1 | urat_pair 2 | urat_pair 3
            | urat_pair 4 | urat_pair 5 | urat_pair 6 ].
Qed.

End UratRoundTrip.

Lemma urat_build_then_read_witness :
  ∃ (i : guint) (j : option guint),
    ublox_combinations !! N.to_nat i = Some 6
    ∧ match j with
      | None => 4 = MM_MODEM_MODE_NONE
      | Some j => ublox_combinations !! N.to_nat j = Some 4
      end
    ∧ mm_ublox_build_urat_set_command 6 4
      = mkPtrRet (Some (urat_set_command_text i j)) None
    ∧ @mm_ublox_parse_urat_read_response reference_helpers (urat_read_response_text i j)
      = ret_true (6, 4).
Proof.
  apply (@urat_build_then_read reference_helpers reference_helpers_read_urat_values 6 4).
  - unfold ublox_combinations. rewrite !elem_of_cons. right. left. reflexivity.
  - right. split; [exists 2; reflexivity|]. split; [|reflexivity].
    unfold ublox_combinations. rewrite !elem_of_cons. right. right. left. reflexivity.
Defined.

(** ** URAT=? *)

Lemma ublox_combination_in_table (value : guint) :
  value < 7 → ublox_combination value ∈ ublox_combinations.
Proof.
  intros Hv. apply list_elem_of_lookup. exists (N.to_nat value).
  apply ublox_combination_lookup, Hv.
Qed.

Lemma preferred_loop_good (mask : MMModemMode) (preferred_values : list guint) :
  mask ∈ ublox_combinations →
  ∀ combinations, Forall good_combination combinations →
    Forall good_combination (urat_test_preferred_loop mask preferred_values combinations).
Proof.
  intros Hmask. unfold urat_test_preferred_loop.
  induction preferred_values as [|pv rest IH]; intros combinations Hall; simpl; [exact Hall|].
  apply IH. rewrite N_ublox_combinations_7.
  destruct (N.leb_spec 7 pv) as [|Hpv]; [exact Hall|]. simpl.
  destruct (N.eqb_spec (mm_count_bits_set (ublox_combination pv)) 1) as [Hc|]; [|exact Hall].
  simpl. destruct (N.eqb_spec (N.land mask (ublox_combination pv)) 0) as [|Hl]; [exact Hall|].
  apply Forall_app. split; [exact Hall|].
  apply Forall_cons. split; [|apply Forall_nil_2].
  split; [exact Hmask|]. right. simpl.
  apply count_bits_set_single in Hc. split; [exact Hc|].
  apply single_mode_land_subset; assumption.
Qed.

Lemma preferred_loop_keeps (mask : MMModemMode) (preferred_values : list guint)
      (c : MMModemModeCombination) :
  ∀ combinations, c ∈ combinations →
    c ∈ urat_test_preferred_loop mask preferred_values combinations.
Proof.
  unfold urat_test_preferred_loop.
  induction preferred_values as [|pv rest IH]; intros combinations Hin; simpl; [exact Hin|].
  apply IH. repeat case_match; try exact Hin. apply elem_of_app. left. exact Hin.
Qed.

Lemma preferred_loop_nonempty (mask : MMModemMode) (preferred_values : list guint) :
  ∀ combinations, combinations ≠ [] →
    urat_test_preferred_loop mask preferred_values combinations ≠ [].
Proof.
  intros combinations Hne Hnil. destruct combinations as [|c rest]; [done|].
  pose proof (preferred_loop_keeps mask preferred_values c (c :: rest)
                (list_elem_of_here c rest)) as Hin.
  rewrite Hnil in Hin. by apply elem_of_nil in Hin.
Qed.

(** the body of the loop over [selected] *)
Lemma selected_loop_step (selected_value : guint) (rest : list guint)
      (preferred_values : option (list guint)) (combinations : list MMModemModeCombination) :
  urat_test_selected_loop (selected_value :: rest) preferred_values combinations =
  urat_test_selected_loop rest preferred_values
    (if 7 <=? selected_value then combinations
     else
       let with_none :=
         combinations ++ [mkComb (ublox_combination selected_value) MM_MODEM_MODE_NONE] in
       if mm_count_bits_set (ublox_combination selected_value) =? 1 then with_none
       else match preferred_values with
            | None => with_none
            | Some preferred_values =>
                urat_test_preferred_loop (ublox_combination selected_value)
                                         preferred_values with_none
            end).
Proof. reflexivity. Qed.

Lemma selected_loop_good (selected_values : list guint)
      (preferred_values : option (list guint)) :
  ∀ combinations, Forall good_combination combinations →
    Forall good_combination
           (urat_test_selected_loop selected_values preferred_values combinations).
Proof.
  induction selected_values as [|sv rest IH]; intros combinations Hall; [exact Hall|].
  rewrite selected_loop_step. apply IH.
  destruct (N.leb_spec 7 sv) as [|Hsv]; [exact Hall|].
  assert (Forall good_combination
            (combinations ++ [mkComb (ublox_combination sv) MM_MODEM_MODE_NONE])) as Hwith.
  { apply Forall_app. split; [exact Hall|].
    apply Forall_cons. split; [|apply Forall_nil_2].
    split; [apply ublox_combination_in_table, Hsv|left; reflexivity]. }
  cbv zeta. destruct (_ =? 1); [exact Hwith|].
  destruct preferred_values as [pvs|]; [|exact Hwith].
  apply preferred_loop_good; [apply ublox_combination_in_table, Hsv|exact Hwith].
Qed.

Lemma selected_loop_keeps (selected_values : list guint)
      (preferred_values : option (list guint)) (c : MMModemModeCombination) :
  ∀ combinations, c ∈ combinations →
    c ∈ urat_test_selected_loop selected_values preferred_values combinations.
Proof.
  induction selected_values as [|sv rest IH]; intros combinations Hin; [exact Hin|].
  rewrite selected_loop_step. apply IH.
  destruct (7 <=? sv); [exact Hin|]. cbv zeta.
  assert (c ∈ combinations ++ [mkComb (ublox_combination sv) MM_MODEM_MODE_NONE])
    by (apply elem_of_app; left; exact Hin).
  destruct (_ =? 1); [assumption|].
  destruct preferred_values; [|assumption].
  apply preferred_loop_keeps. assumption.
Qed.

Lemma selected_loop_has_plain (selected_values : list guint)
      (preferred_values : option (list guint)) (v : guint) :
  v ∈ selected_values → v < 7 →
  ∀ combinations,
    mkComb (ublox_combination v) MM_MODEM_MODE_NONE
    ∈ urat_test_selected_loop selected_values preferred_values combinations.
Proof.
  intros Hin Hv.
  induction selected_values as [|sv rest IH]; intros combinations;
    [by apply elem_of_nil in Hin|].
  rewrite selected_loop_step.
  apply elem_of_cons in Hin as [<-|Hin]; [|apply IH, Hin].
  apply selected_loop_keeps.
  destruct (N.leb_spec 7 v); [lia|]. cbv zeta.
  assert (mkComb (ublox_combination v) MM_MODEM_MODE_NONE
          ∈ combinations ++ [mkComb (ublox_combination v) MM_MODEM_MODE_NONE])
    by (apply elem_of_app; right; apply list_elem_of_here).
  destruct (_ =? 1); [assumption|].
  destruct preferred_values; [|assumption].
  apply preferred_loop_keeps. assumption.
Qed.

(** without a [preferred] array every combination has no preferred mode *)
Lemma selected_loop_plain_only (selected_values : list guint) :
  ∀ combinations,
    Forall (λ c, preferred c = MM_MODEM_MODE_NONE) combinations →
    Forall (λ c, preferred c = MM_MODEM_MODE_NONE)
           (urat_test_selected_loop selected_values None combinations).
Proof.
  induction selected_values as [|sv rest IH]; intros combinations Hall; [exact Hall|].
  rewrite selected_loop_step. apply IH.
  destruct (7 <=? sv); [exact Hall|]. cbv zeta.
  assert (Forall (λ c, preferred c = MM_MODEM_MODE_NONE)
                 (combinations ++ [mkComb (ublox_combination sv) MM_MODEM_MODE_NONE])).
  { apply Forall_app. split; [exact Hall|]. apply Forall_cons. split; [reflexivity|].
    apply Forall_nil_2. }
  destruct (_ =? 1); assumption.
Qed.

Section UratTest.
Context `{MMHelpers}.

Lemma urat_test_returned (response : string)
      (combinations : list MMModemModeCombination) :
  pointer (mm_ublox_parse_urat_test_response response) = Some combinations →
  ∃ selected_values,
    pointer (mm_parse_uint_list (urat_test_split response !! 0%nat)) = Some selected_values
    ∧ combinations
      = urat_test_selected_loop
          selected_values
          (pointer (mm_parse_uint_list (urat_test_split response !! 1%nat))) []
    ∧ combinations ≠ []
    ∧ perror (mm_ublox_parse_urat_test_response response) = None.
Proof.
  unfold mm_ublox_parse_urat_test_response, urat_test_split.
  set (split := mm_split_string_groups (mm_strip_tag response "+URAT:")).
  destruct (_ || _)%bool; [discriminate|].
  destruct (perror (mm_parse_uint_list (split !! 0%nat))); [discriminate|].
  destruct (pointer (mm_parse_uint_list (split !! 0%nat))) as [selected_values|];
    [|discriminate].
  destruct (perror (mm_parse_uint_list (split !! 1%nat))); [discriminate|].
  destruct (urat_test_selected_loop _ _ _) as [|c rest] eqn:Hloop; simpl; [discriminate|].
  intros [= <-]. exists selected_values. done.
Qed.

(** C2: a returned array is not empty; each of its combinations has an
    allowed mask of the table and a preferred mask that is none or a single
    mode within the allowed mask; and every value below 7 of the selected
    array contributes the combination of its table entry with no preferred
    mode. *)
Theorem urat_test_response_combinations (response : string)
        (combinations : list MMModemModeCombination) :
  pointer (mm_ublox_parse_urat_test_response response) = Some combinations →
  combinations ≠ []
  ∧ Forall good_combination combinations
  ∧ ∃ selected_values,
      pointer (mm_parse_uint_list (urat_test_split response !! 0%nat)) = Some selected_values
      ∧ ∀ v, v ∈ selected_values → v < 7 →
             mkComb (ublox_combination v) MM_MODEM_MODE_NONE ∈ combinations.
Proof.
  intros Hret.
  destruct (urat_test_returned _ _ Hret) as (selected_values & Hsel & -> & Hne & _).
  split; [exact Hne|]. split.
  - apply selected_loop_good, Forall_nil_2.
  - exists selected_values. split; [exact Hsel|].
    intros v Hin Hv. apply selected_loop_has_plain; assumption.
Qed.

End UratTest.

Lemma urat_test_response_combinations_witness :
  ∃ combinations,
    pointer (@mm_ublox_parse_urat_test_response reference_helpers "+URAT: (0-6),(0,2,3)")
    = Some combinations
    ∧ combinations ≠ [] ∧ Forall good_combination combinations.
Proof.
  eexists. split; [vm_compute; reflexivity|].
  destruct (@urat_test_response_combinations reference_helpers "+URAT: (0-6),(0,2,3)" _
              ltac:(vm_compute; reflexivity)) as (Hne & Hgood & _).
  split; assumption.
Defined.

(** ** Mode to apply when ANY *)

(** the loop never leaves its start on combinations without a preferred
    mode, so the assertion fails on them *)
Lemma get_modem_mode_any_plain_only (combinations : list MMModemModeCombination) :
  Forall (λ c, preferred c = MM_MODEM_MODE_NONE) combinations →
  mm_ublox_get_modem_mode_any combinations = None.
Proof.
  unfold mm_ublox_get_modem_mode_any. intros Hall.
  assert (foldl modem_mode_any_step (MM_MODEM_MODE_NONE, 0) combinations
          = (MM_MODEM_MODE_NONE, 0)) as ->.
  { induction Hall as [|c rest Hc _ IH]; [reflexivity|].
    simpl. rewrite Hc. simpl. exact IH. }
  reflexivity.
Qed.

Section ModeAny.
Context `{MMHelpers}.

(** C3, where the response has no usable second group: the array that the
    URAT=? parser returns makes the assertion of
    [mm_ublox_get_modem_mode_any] fail, since the loop skips the
    combinations without a preferred mode instead of selecting among
    them. *)
Theorem urat_test_without_preferred_fails_assertion (response : string)
        (combinations : list MMModemModeCombination) :
  pointer (mm_ublox_parse_urat_test_response response) = Some combinations →
  pointer (mm_parse_uint_list (urat_test_split response !! 1%nat)) = None →
  mm_ublox_get_modem_mode_any combinations = None.
Proof.
  intros Hret Hpref.
  destruct (urat_test_returned _ _ Hret) as (selected_values & _ & -> & _ & _).
  rewrite Hpref. apply get_modem_mode_any_plain_only.
  apply selected_loop_plain_only, Forall_nil_2.
Qed.

End ModeAny.

Lemma urat_test_without_preferred_fails_assertion_witness :
  ∃ combinations,
    pointer (@mm_ublox_parse_urat_test_response reference_helpers "+URAT: (0-6)")
    = Some combinations
    ∧ mm_ublox_get_modem_mode_any combinations = None.
Proof.
  eexists. split; [vm_compute; reflexivity|].
  apply (@urat_test_without_preferred_fails_assertion reference_helpers "+URAT: (0-6)");
    vm_compute; reflexivity.
Defined.

(** single modes only, with a second group: the assertion fails as well *)
Example urat_test_single_modes_fail_assertion :
  mm_ublox_get_modem_mode_any
    (default [] (pointer (@mm_ublox_parse_urat_test_response
                            reference_helpers "+URAT: (0,2,3),(0,2,3)"))) = None.
Proof. vm_compute. reflexivity. Qed.

(** with modes to choose a preference in, the widest allowed mask is
    returned *)
Example urat_test_full_any :
  mm_ublox_get_modem_mode_any
    (default [] (pointer (@mm_ublox_parse_urat_test_response
                            reference_helpers "+URAT: (0-6),(0,2,3)"))) = Some 14.
Proof. vm_compute. reflexivity. Qed.

(** ** Per-model filtering *)

Lemma supported_modes_per_model_table (model : string) :
  supported_modes_per_model (Some model) = model_mask model.
Proof.
  unfold supported_modes_per_model, model_mask, loses_2G, loses_4G.
  destruct (String.eqb_spec model "TOBY-L201") as [->|_]; [reflexivity|].
  destruct (String.eqb_spec model "TOBY-L220") as [->|_]; [reflexivity|].
  destruct (String.eqb_spec model "MPCI-L201") as [->|_]; [reflexivity|].
  destruct (String.eqb_spec model "SARA-U270-53S") as [->|_]; [reflexivity|].
  destruct (String.eqb_spec model "SARA-U280") as [->|_]; [reflexivity|].
  simpl. destruct (_ || _)%bool; reflexivity.
Qed.

(** C6: a NULL model and a model that supports 2G, 3G and 4G leave the array
    as it is; otherwise the combinations compatible with the mask of the
    model are kept, or NULL is returned with a MM_CORE_ERROR_FAILED error
    when none is; the mask of a model is that of the table. *)
Theorem filter_supported_modes_spec (combinations : list MMModemModeCombination) :
  mm_ublox_filter_supported_modes None combinations = mkPtrRet (Some combinations) None
  ∧ ∀ model : string,
      supported_modes_per_model (Some model) = model_mask model
      ∧ let r := mm_ublox_filter_supported_modes (Some model) combinations in
        let kept := List.filter (compatible (model_mask model)) combinations in
        if model_mask model =? ALL_MODES then r = mkPtrRet (Some combinations) None
        else match kept with
             | [] => pointer r = None
                     ∧ ∃ e, perror r = Some e ∧ is_core_error MM_CORE_ERROR_FAILED e
             | _ => r = mkPtrRet (Some kept) None
             end.
Proof.
  split; [reflexivity|]. intros model.
  split; [apply supported_modes_per_model_table|].
  unfold mm_ublox_filter_supported_modes. cbv zeta.
  rewrite supported_modes_per_model_table. simpl allowed.
  change (supported_modes_per_model None) with ALL_MODES.
  destruct (model_mask model =? ALL_MODES); [reflexivity|].
  unfold mm_filter_supported_modes. simpl allowed.
  destruct (List.filter _ combinations) as [|c rest]; simpl.
  - split; [reflexivity|]. eexists. split; [reflexivity|]. split; reflexivity.
  - reflexivity.
Qed.

Example filter_sara_u280 :
  mm_ublox_filter_supported_modes (Some "SARA-U280") [mkComb 2 0; mkComb 4 0; mkComb 6 4]
  = mkPtrRet (Some [mkComb 4 0]) None.
Proof. vm_compute. reflexivity. Qed.

Example filter_toby_l201_nothing_left :
  pointer (mm_ublox_filter_supported_modes (Some "TOBY-L201") [mkComb 2 0; mkComb 6 2]) = None.
Proof. vm_compute. reflexivity. Qed.

(** ** UIPADDR=N *)

Section Uipaddr.
Context `{MMHelpers}.

Lemma store_if_other (p : option nat) (v : cell) (mem : gmap nat cell) (a : nat) :
  p ≠ Some a → store_if p v mem !! a = mem !! a.
Proof.
  destruct p as [b|]; simpl; [|reflexivity].
  intros Hne. apply lookup_insert_ne. congruence.
Qed.

Local Ltac uipaddr_leaf :=
  repeat split; try done; try (eexists; reflexivity); try (intros [? [=]]).

(** C10: when the parser returns FALSE the memory behind the out pointers
    is as before and an error is set; when it returns TRUE the memory is the
    old one after the stores through the out pointers that are not NULL, so
    no other location changes; a requested cid was read from the first
    group, a requested interface name is a string that the second group
    gave, and the four addresses are what the helper gave, NULL included. *)
Theorem uipaddr_response_atomic (response : string)
        (out_cid out_if_name out_ipv4_address out_ipv4_subnet
         out_ipv6_global_address out_ipv6_link_local_address : option nat)
        (mem : gmap nat cell) :
  let r := mm_ublox_parse_uipaddr_response
             response out_cid out_if_name out_ipv4_address out_ipv4_subnet
             out_ipv6_global_address out_ipv6_link_local_address mem in
  if m_retval r then
    m_error r = None
    ∧ (∀ a, Some a ∉ [out_cid; out_if_name; out_ipv4_address; out_ipv4_subnet;
                       out_ipv6_global_address; out_ipv6_link_local_address] →
            m_mem r !! a = mem !! a)
    ∧ ∃ match_info cid if_name,
        g_regex_match_full uipaddr_regex response = Some match_info
        ∧ (is_Some out_cid → mm_get_uint_from_match_info match_info 1 = Some cid)
        ∧ (is_Some out_if_name →
           is_Some if_name
           ∧ if_name = mm_get_string_unquoted_from_match_info match_info 2)
        ∧ m_mem r
          = uipaddr_stores out_cid out_if_name out_ipv4_address out_ipv4_subnet
              out_ipv6_global_address out_ipv6_link_local_address
              cid if_name
              (fetched_if out_ipv4_address match_info 3)
              (fetched_if out_ipv4_subnet match_info 4)
              (fetched_if out_ipv6_global_address match_info 5)
              (fetched_if out_ipv6_link_local_address match_info 6)
              mem
  else m_mem r = mem ∧ is_Some (m_error r).
Proof.
  intros r. subst r. unfold mm_ublox_parse_uipaddr_response.
  destruct (g_regex_match_full uipaddr_regex response) as [match_info|];
    [|simpl; split; [reflexivity|eexists; reflexivity]].
  destruct out_cid as [pc|], (mm_get_uint_from_match_info match_info 1) as [cid|] eqn:Hcid;
    try (simpl; split; [reflexivity|eexists; reflexivity]).
  all: destruct out_if_name as [pn|];
    [destruct (mm_get_string_unquoted_from_match_info match_info 2) as [name|] eqn:Hname|];
    try (simpl; split; [reflexivity|eexists; reflexivity]).
  all: cbn -[store_if]; split; [reflexivity|]; split;
    [intros a Hnot; rewrite !not_elem_of_cons in Hnot; destruct Hnot as (?&?&?&?&?&?&_);
     rewrite !store_if_other by congruence; reflexivity|].
  - exists match_info, cid, (Some name). rewrite Hname. uipaddr_leaf.
  - exists match_info, cid, None. uipaddr_leaf.
  - exists match_info, 0, (Some name). rewrite Hname. uipaddr_leaf.
  - exists match_info, 0, None. uipaddr_leaf.
  - exists match_info, 0, (Some name). rewrite Hname. uipaddr_leaf.
  - exists match_info, 0, None. uipaddr_leaf.
Qed.

End Uipaddr.

(** the first example of the source comment, all six out pointers given *)
Example uipaddr_reference_example :
  @mm_ublox_parse_uipaddr_response reference_helpers
    ("+UIPADDR: 1," +:+ quoted "ccinet0" +:+ "," +:+ quoted "5.168.120.13" +:+ ","
       +:+ quoted "255.255.255.0" +:+ "," +:+ quoted "" +:+ "," +:+ quoted "")
    (Some 1%nat) (Some 2%nat) (Some 3%nat) (Some 4%nat) (Some 5%nat) (Some 6%nat) ∅
  = mkMemRet true None
      (<[6%nat := Cell_string None]>
         (<[5%nat := Cell_string None]>
            (<[4%nat := Cell_string (Some "255.255.255.0")]>
               (<[3%nat := Cell_string (Some "5.168.120.13")]>
                  (<[2%nat := Cell_string (Some "ccinet0")]>
                     (<[1%nat := Cell_guint 1]> ∅)))))).
Proof. vm_compute. reflexivity. Qed.

(** an interface name that is asked for and empty: FALSE, nothing stored *)
Example uipaddr_reference_no_name :
  @mm_ublox_parse_uipaddr_response reference_helpers
    "+UIPADDR: 1,,,,," (Some 1%nat) (Some 2%nat) None None None None ∅
  = mkMemRet false (Some (core_error MM_CORE_ERROR_FAILED "Error parsing interface name")) ∅.
Proof. vm_compute. reflexivity. Qed.

(** the same response when only the cid is asked for *)
Example uipaddr_reference_cid_only :
  @mm_ublox_parse_uipaddr_response reference_helpers
    "+UIPADDR: 1,,,,," (Some 1%nat) None None None None None ∅
  = mkMemRet true None (<[1%nat := Cell_guint 1]> ∅).
Proof. vm_compute. reflexivity. Qed.

(** ** The MBIM modem *)

Module MbimProofs.
Import Mbim.

(** C8 does not hold: with a parent that fails, the finish function still
    returns TRUE. *)
Lemma enabling_ignores_parent_failure : ¬ enabling_passes_parent_outcome.
Proof.
  intros Hpass. destruct (Hpass failing_parent) as [Hret _].
  vm_compute in Hret. discriminate.
Qed.

(** C8, amended: [enabling_started] calls the parent's [enabling_started]
    and nothing else, and whatever the parent's outcome the operation
    completes with the boolean TRUE, so that [enabling_started_finish]
    returns TRUE and sets no error. *)
Theorem enabling_started_always_succeeds (env : Environment) :
  let '(calls, res) := enabling_started env in
  calls = [Call_parent_enabling_started]
  ∧ simple_completed res = true
  ∧ simple_op_res res = OpRes_gboolean true
  ∧ enabling_started_finish res = mkRet true None None.
Proof. repeat split. Qed.

(** C7: without a MBIM port the operation completes with the
    MM_CORE_ERROR_FAILED error that says the port went missing and calls
    nothing; with a closed port it opens the port and, if that fails,
    completes with the error of the open; with a port that is or has become
    open it calls the parent's [initialization_started] and completes
    without an error, handing on the parent's context pointer, whether or
    not the parent reported an error. *)
Theorem initialization_started_spec (env : Environment) :
  let '(calls, res) := initialization_started env in
  let finished := initialization_started_finish res in
  simple_completed res = true
  ∧ match base_modem_port_mbim env with
    | None =>
        calls = []
        ∧ finished
          = mkPtrRet None (Some (core_error MM_CORE_ERROR_FAILED
                                   "Cannot initialize: MBIM port went missing"))
    | Some mbim =>
        if port_is_open mbim then
          calls = [Call_parent_initialization_started]
          ∧ finished = mkPtrRet (pointer (parent_initialization_result env)) None
        else
          match mbim_port_open_result env with
          | Some open_error =>
              calls = [Call_mm_mbim_port_open]
              ∧ finished = mkPtrRet None (Some open_error)
          | None =>
              calls = [Call_mm_mbim_port_open; Call_parent_initialization_started]
              ∧ finished = mkPtrRet (pointer (parent_initialization_result env)) None
          end
    end.
Proof.
  unfold initialization_started.
  destruct env as [[[[]]|] [open_error|] parent_enabling parent_initialization];
    simpl; repeat split.
Qed.

End MbimProofs.

(** * Further properties of the code *)

(** ** The parsers and their errors *)

Section ParserErrors.
Context `{MMHelpers}.

(** X1: the UUSBCONF? parser returns TRUE exactly when it stores a profile,
    the stored profile is never the unknown one, and FALSE always comes with
    an error: MM_CORE_ERROR_FAILED exactly when the response does not match,
    MM_CORE_ERROR_UNSUPPORTED exactly when it matches with a profile name
    that is neither empty, RNDIS nor ECM. *)
Theorem uusbconf_response_discipline (response : string) :
  let r := mm_ublox_parse_uusbconf_response response in
  match g_regex_match_full uusbconf_regex response with
  | None =>
      r = ret_false (Some (core_error MM_CORE_ERROR_FAILED "Couldn't parse profile response"))
  | Some match_info =>
      match mm_get_string_unquoted_from_match_info match_info 2 with
      | None | Some "" => r = ret_true MM_UBLOX_USB_PROFILE_BACK_COMPATIBLE
      | Some name =>
          (name = "RNDIS" → r = ret_true MM_UBLOX_USB_PROFILE_RNDIS)
          ∧ (name = "ECM" → r = ret_true MM_UBLOX_USB_PROFILE_ECM)
          ∧ (name ≠ "RNDIS" → name ≠ "ECM" →
             retval r = false ∧ out r = None
             ∧ ∃ e, error r = Some e ∧ is_core_error MM_CORE_ERROR_UNSUPPORTED e)
      end
  end
  ∧ out r ≠ Some MM_UBLOX_USB_PROFILE_UNKNOWN
  ∧ (retval r = true ↔ is_Some (out r))
  ∧ (retval r = false ↔ is_Some (error r)).
Proof.
  intros r. subst r. unfold mm_ublox_parse_uusbconf_response.
  destruct (g_regex_match_full uusbconf_regex response) as [match_info|].
  2:{ simpl. repeat split; try done; try (intros [? [=]]); eauto. }
  destruct (mm_get_string_unquoted_from_match_info match_info 2) as [[|c name]|].
  1,3: simpl; repeat split; try done; try (intros [? [=]]); eauto.
  destruct (String.eqb_spec (String c name) "RNDIS") as [->|Hr].
  { simpl. repeat split; try done; try (intros [? [=]]); eauto. }
  destruct (String.eqb_spec (String c name) "ECM") as [->|He].
  { simpl. repeat split; try done; try (intros [? [=]]); eauto. }
  simpl. repeat split; try done; try (intros [? [=]]); eauto.
  eexists. split; [reflexivity|]. split; reflexivity.
Qed.

(** X2: the UBMCONF? parser decodes mode 1 as router and mode 2 as bridge;
    any other mode that is read gives FALSE with MM_CORE_ERROR_UNSUPPORTED;
    a response that does not match, and a matched mode that cannot be read,
    give FALSE with MM_CORE_ERROR_FAILED.  It never stores the unknown mode
    and never returns FALSE without an error. *)
Theorem ubmconf_response_discipline (response : string) :
  let r := mm_ublox_parse_ubmconf_response response in
  let failed :=
    ret_false (Some (core_error MM_CORE_ERROR_FAILED
                       "Couldn't parse networking mode response")) in
  match g_regex_match_full ubmconf_regex response with
  | None => r = failed
  | Some match_info =>
      match mm_get_uint_from_match_info match_info 1 with
      | None => r = failed
      | Some mode_id =>
          (mode_id = 1 → r = ret_true MM_UBLOX_NETWORKING_MODE_ROUTER)
          ∧ (mode_id = 2 → r = ret_true MM_UBLOX_NETWORKING_MODE_BRIDGE)
          ∧ (mode_id ≠ 1 → mode_id ≠ 2 →
             retval r = false ∧ out r = None
             ∧ ∃ e, error r = Some e ∧ is_core_error MM_CORE_ERROR_UNSUPPORTED e)
      end
  end
  ∧ out r ≠ Some MM_UBLOX_NETWORKING_MODE_UNKNOWN
  ∧ (retval r = false ↔ is_Some (error r)).
Proof.
  intros r failed. subst r failed. unfold mm_ublox_parse_ubmconf_response.
  destruct (g_regex_match_full ubmconf_regex response) as [match_info|].
  2:{ simpl. repeat split; try done; try (intros [? [=]]); eauto. }
  destruct (mm_get_uint_from_match_info match_info 1) as [mode_id|].
  2:{ simpl. repeat split; try done; try (intros [? [=]]); eauto. }
  destruct (N.eqb_spec mode_id 1) as [->|H1].
  { simpl. repeat split; try done; try (intros [? [=]]); eauto. }
  destruct (N.eqb_spec mode_id 2) as [->|H2].
  { simpl. repeat split; try done; try (intros [? [=]]); eauto. }
  simpl. repeat split; try done; try (intros [? [=]]); eauto.
  eexists. split; [reflexivity|]. split; reflexivity.
Qed.

(** X3: the URAT? parser returns FALSE without setting the caller's error
    exactly when the response does not match the pattern; every error it
    does set is MM_CORE_ERROR_FAILED; and the masks it stores on success
    form a combination of the kind the URAT=? parser announces: an allowed
    mask of the table with a preferred mask that is none or a single mode
    within it. *)
Theorem urat_read_response_discipline (response : string) :
  let r := mm_ublox_parse_urat_read_response response in
  (retval r = false ∧ error r = None ↔ g_regex_match_full urat_regex response = None)
  ∧ (∀ e, error r = Some e → retval r = false ∧ is_core_error MM_CORE_ERROR_FAILED e)
  ∧ (∀ a p, out r = Some (a, p) → retval r = true ∧ good_combination (mkComb a p)).
Proof.
  intros r. subst r.
  destruct (g_regex_match_full urat_regex response) as [match_info|] eqn:Hm.
  2:{ unfold mm_ublox_parse_urat_read_response. rewrite Hm. simpl.
      split; [split; done|]. split; [intros e [=]|intros a p [=]]. }
  rewrite (urat_read_matched _ _ Hm).
  destruct (mm_get_uint_from_match_info match_info 1) as [va|].
  2:{ simpl. split; [split; [intros [_ [=]]|discriminate]|].
      split; [intros e [= <-]; repeat split|intros a p [=]]. }
  destruct (N.leb_spec 7 va) as [|Hva].
  { simpl. split; [split; [intros [_ [=]]|discriminate]|].
    split; [intros e [= <-]; repeat split|intros a p [=]]. }
  pose proof (ublox_combination_in_table va Hva) as Hin.
  destruct (mm_get_uint_from_match_info match_info 2) as [vp|].
  2:{ simpl. split; [split; [intros [[=] _]|discriminate]|].
      split; [intros e [=]|]. intros a p [= <- <-].
      split; [reflexivity|]. split; [exact Hin|left; reflexivity]. }
  destruct (N.leb_spec 7 vp) as [|Hvp].
  { simpl. split; [split; [intros [_ [=]]|discriminate]|].
    split; [intros e [= <-]; repeat split|intros a p [=]]. }
  destruct (N.eqb_spec (mm_count_bits_set (ublox_combination vp)) 1) as [Hc|Hc]; simpl.
  2:{ split; [split; [intros [_ [=]]|discriminate]|].
      split; [intros e [= <-]; repeat split|intros a p [=]]. }
  destruct (N.eqb_spec (N.land (ublox_combination va) (ublox_combination vp)) 0)
    as [Hl|Hl]; simpl.
  { split; [split; [intros [_ [=]]|discriminate]|].
    split; [intros e [= <-]; repeat split|intros a p [=]]. }
  split; [split; [intros [[=] _]|discriminate]|].
  split; [intros e [=]|]. intros a p [= <- <-].
  split; [reflexivity|]. split; [exact Hin|]. right. simpl.
  apply count_bits_set_single in Hc. split; [exact Hc|].
  apply single_mode_land_subset; assumption.
Qed.

Local Ltac upincnt_unread match_info n Hn :=
  simpl; split; [split; discriminate|];
  split; [split; [discriminate|intros [? [=]]]|];
  intros e [= <-]; split; [split; reflexivity|];
  split; [intros [_ [=]]|];
  exists match_info, n; split; [reflexivity|]; split; [lia|exact Hn].

(** X4: the UPINCNT parser never reports MM_CORE_ERROR_FAILED.  It returns
    FALSE only when a line matched and one of its four groups could not be
    read, the error then being MM_CORE_ERROR_UNSUPPORTED; in every other
    case it returns TRUE and stores four counters. *)
Theorem upincnt_response_discipline (response : string) :
  let r := mm_ublox_parse_upincnt_response response in
  (retval r = true ↔ error r = None)
  ∧ (retval r = true ↔ is_Some (out r))
  ∧ (∀ e, error r = Some e →
          is_core_error MM_CORE_ERROR_UNSUPPORTED e
          ∧ ¬ is_core_error MM_CORE_ERROR_FAILED e
          ∧ ∃ match_info n,
              g_regex_match_full upincnt_regex response = Some match_info
              ∧ (1 <= n <= 4)%nat
              ∧ mm_get_uint_from_match_info match_info n = None).
Proof.
  intros r. subst r. unfold mm_ublox_parse_upincnt_response.
  destruct (g_regex_match_full upincnt_regex response) as [match_info|].
  2:{ simpl. split; [done|]. split; [split; [eauto|done]|]. intros e [=]. }
  destruct (mm_get_uint_from_match_info match_info 1) as [p1|] eqn:H1;
    [|upincnt_unread match_info 1%nat H1].
  destruct (mm_get_uint_from_match_info match_info 2) as [p2|] eqn:H2;
    [|upincnt_unread match_info 2%nat H2].
  destruct (mm_get_uint_from_match_info match_info 3) as [p3|] eqn:H3;
    [|upincnt_unread match_info 3%nat H3].
  destruct (mm_get_uint_from_match_info match_info 4) as [p4|] eqn:H4;
    [|upincnt_unread match_info 4%nat H4].
  simpl. split; [done|]. split; [split; [eauto|done]|]. intros e [=].
Qed.

(** X5: the CFUN? parser stores only the states ON and LOW, never OFF or
    UNKNOWN, and it sets the caller's error in one case only: when a line
    matched and its value could not be read; the error is then
    MM_CORE_ERROR_FAILED. *)
Theorem cfun_response_discipline (response : string) :
  let r := mm_ublox_parse_cfun_response response in
  (∀ state, out r = Some state →
            retval r = true
            ∧ (state = MM_MODEM_POWER_STATE_ON ∨ state = MM_MODEM_POWER_STATE_LOW))
  ∧ (retval r = true → is_Some (out r) ∧ error r = None)
  ∧ (∀ e, error r = Some e ↔
          e = core_error MM_CORE_ERROR_FAILED "Couldn't read power state value"
          ∧ ∃ match_info,
              g_regex_match_full cfun_regex response = Some match_info
              ∧ mm_get_uint_from_match_info match_info 1 = None).
Proof.
  intros r. subst r. unfold mm_ublox_parse_cfun_response.
  destruct (g_regex_match_full cfun_regex response) as [match_info|].
  2:{ simpl. split; [intros ? [=]|]. split; [intros [=]|].
      intros e. split; [intros [=]|intros (_ & ? & [=] & _)]. }
  destruct (mm_get_uint_from_match_info match_info 1) as [v|] eqn:Hv.
  2:{ simpl. split; [intros ? [=]|]. split; [intros [=]|].
      intros e. split.
      - intros [= <-]. split; [reflexivity|]. exists match_info. split; [reflexivity|exact Hv].
      - intros [-> _]. reflexivity. }
  assert (∀ e : GError,
            (e = core_error MM_CORE_ERROR_FAILED "Couldn't read power state value"
             ∧ ∃ match_info0,
                 Some match_info = Some match_info0
                 ∧ mm_get_uint_from_match_info match_info0 1 = None) → False) as Hread.
  { intros e (_ & mi & [= <-] & Hn). congruence. }
  unfold cfun_state_of_value.
  destruct (v =? 1); [|destruct ((v =? 0) || (v =? 4) || (v =? 19))%bool]; simpl.
  - split; [intros ? [= <-]; split; [reflexivity|left; reflexivity]|].
    split; [intros _; split; [eexists; reflexivity|reflexivity]|].
    intros e. split; [intros [=]|intros Hc; destruct (Hread e Hc)].
  - split; [intros ? [= <-]; split; [reflexivity|right; reflexivity]|].
    split; [intros _; split; [eexists; reflexivity|reflexivity]|].
    intros e. split; [intros [=]|intros Hc; destruct (Hread e Hc)].
  - split; [intros ? [=]|]. split; [intros [=]|].
    intros e. split; [intros [=]|intros Hc; destruct (Hread e Hc)].
Qed.

End ParserErrors.

(** ** The model table *)

(** X6: whatever the model, the supported mask keeps 3G, holds no mode
    outside 2G, 3G and 4G, and is never empty; so the entry handed to the
    filter always allows something. *)
Theorem supported_modes_per_model_bounds (model : option string) :
  let mask := supported_modes_per_model model in
  mode_subset MM_MODEM_MODE_3G mask
  ∧ mode_subset mask ALL_MODES
  ∧ mask ≠ MM_MODEM_MODE_NONE.
Proof.
  destruct model as [model|]; [|vm_compute; repeat split; discriminate].
  cbv zeta. rewrite supported_modes_per_model_table. unfold model_mask.
  destruct (loses_2G model), (loses_4G model); vm_compute; repeat split; discriminate.
Qed.

(** ** The command builder *)

Lemma append_rat_value_from_none (table : list MMModemMode) (mode : MMModemMode) :
  ∀ (i : guint) (str : string),
    append_rat_value_from table i str mode = None ↔ mode ∉ table.
Proof.
  induction table as [|entry table IH]; intros i str; simpl.
  - split; [intros _; apply not_elem_of_nil|reflexivity].
  - rewrite not_elem_of_cons. destruct (N.eqb_spec entry mode) as [->|Hne].
    + split; [discriminate|intros [? _]; congruence].
    + rewrite IH. split; [intros ?; split; [congruence|assumption]|intros [_ ?]; assumption].
Qed.

Lemma append_rat_value_out (str : string) (mode : MMModemMode) :
  match out (append_rat_value str mode) with
  | Some _ => mode ∈ ublox_combinations ∧ error (append_rat_value str mode) = None
  | None =>
      (mode ∉ ublox_combinations)
      ∧ (error (append_rat_value str mode)
         = Some (core_error MM_CORE_ERROR_FAILED "No AcT value matches requested mode"))
  end.
Proof.
  unfold append_rat_value.
  destruct (append_rat_value_from ublox_combinations 0 str mode) as [str'|] eqn:Hfrom; simpl.
  - split; [|reflexivity].
    destruct (decide (mode ∈ ublox_combinations)) as [|Hnot]; [assumption|].
    apply append_rat_value_from_none with (i := 0) (str := str) in Hnot. congruence.
  - split; [|reflexivity]. eapply append_rat_value_from_none, Hfrom.
Qed.

(** X7: the builder succeeds exactly when the allowed mask is an entry of
    the table and the preferred mask is none or an entry of the table; it
    does not ask the preferred mask to be a single mode or to lie within the
    allowed one.  It returns NULL exactly when it sets an error, which is
    always MM_CORE_ERROR_FAILED. *)
Theorem build_urat_set_command_succeeds (allowed preferred : MMModemMode) :
  let r := mm_ublox_build_urat_set_command allowed preferred in
  (is_Some (pointer r) ↔
   allowed ∈ ublox_combinations
   ∧ (preferred = MM_MODEM_MODE_NONE ∨ preferred ∈ ublox_combinations))
  ∧ (pointer r = None ↔ is_Some (perror r))
  ∧ (∀ e, perror r = Some e → is_core_error MM_CORE_ERROR_FAILED e).
Proof.
  intros r. subst r. unfold mm_ublox_build_urat_set_command.
  pose proof (append_rat_value_out "+URAT=" allowed) as Ha.
  destruct (out (append_rat_value "+URAT=" allowed)) as [command|].
  2:{ destruct Ha as [Hnot ->]. simpl. split; [|split].
      - split; [intros [? [=]]|intros [? _]; contradiction].
      - split; [eauto|reflexivity].
      - intros e [= <-]. split; reflexivity. }
  destruct Ha as [Hin _].
  destruct (N.eqb_spec preferred MM_MODEM_MODE_NONE) as [->|Hp]; simpl.
  { split; [|split].
    - split; [intros _; split; [assumption|left; reflexivity]|eauto].
    - split; [discriminate|intros [? [=]]].
    - intros e [=]. }
  pose proof (append_rat_value_out (command +:+ ",") preferred) as Hb.
  destruct (out (append_rat_value (command +:+ ",") preferred)) as [command'|].
  - destruct Hb as [Hpin _]. simpl. split; [|split].
    + split; [intros _; split; [assumption|right; assumption]|eauto].
    + split; [discriminate|intros [? [=]]].
    + intros e [=].
  - destruct Hb as [Hnot ->]. simpl. split; [|split].
    + split; [intros [? [=]]|intros [_ [?|?]]; contradiction].
    + split; [eauto|reflexivity].
    + intros e [= <-]. split; reflexivity.
Qed.

Lemma buildable_pairs_check :
  forallb (λ x, forallb (λ y, implb (String.eqb (urat_command_of x) (urat_command_of y))
                                   (pair_eqb x y))
                        buildable_pairs)
          buildable_pairs = true.
Proof. vm_compute. reflexivity. Qed.

Lemma build_success_in_table (allowed preferred : MMModemMode) :
  is_Some (pointer (mm_ublox_build_urat_set_command allowed preferred)) →
  allowed ∈ ublox_combinations
  ∧ (preferred = MM_MODEM_MODE_NONE ∨ preferred ∈ ublox_combinations).
Proof.
  unfold mm_ublox_build_urat_set_command.
  pose proof (append_rat_value_out "+URAT=" allowed) as Ha.
  destruct (out (append_rat_value "+URAT=" allowed)) as [command|];
    [|intros [? [=]]].
  destruct Ha as [Hin _].
  destruct (N.eqb_spec preferred MM_MODEM_MODE_NONE) as [->|Hp]; simpl;
    [intros _; split; [assumption|left; reflexivity]|].
  pose proof (append_rat_value_out (command +:+ ",") preferred) as Hb.
  destruct (out (append_rat_value (command +:+ ",") preferred)) as [command'|];
    [|intros [? [=]]].
  destruct Hb as [Hpin _]. intros _. split; [assumption|right; assumption].
Qed.

Lemma in_buildable_pairs (allowed preferred : MMModemMode) :
  is_Some (pointer (mm_ublox_build_urat_set_command allowed preferred)) →
  In (allowed, preferred) buildable_pairs.
Proof.
  intros Hs. apply build_success_in_table in Hs as [Ha Hp].
  unfold buildable_pairs. apply in_prod.
  - apply list_elem_of_In, Ha.
  - destruct Hp as [->|Hp]; [left; reflexivity|right; apply list_elem_of_In, Hp].
Qed.

(** X8: the builder is injective: two pairs of masks for which it gives the
    same command are the same pair, so a command names one combination. *)
Theorem build_urat_set_command_injective
        (allowed preferred allowed' preferred' : MMModemMode) (command : string) :
  pointer (mm_ublox_build_urat_set_command allowed preferred) = Some command →
  pointer (mm_ublox_build_urat_set_command allowed' preferred') = Some command →
  allowed = allowed' ∧ preferred = preferred'.
Proof.
  intros Hx Hy.
  pose proof (in_buildable_pairs allowed preferred ltac:(rewrite Hx; eauto)) as Hinx.
  pose proof (in_buildable_pairs allowed' preferred' ltac:(rewrite Hy; eauto)) as Hiny.
  pose proof buildable_pairs_check as Hcheck.
  rewrite forallb_forall in Hcheck. specialize (Hcheck _ Hinx).
  rewrite forallb_forall in Hcheck. specialize (Hcheck _ Hiny).
  unfold urat_command_of in Hcheck. simpl in Hcheck. rewrite Hx, Hy in Hcheck.
  simpl in Hcheck. rewrite String.eqb_refl in Hcheck. simpl in Hcheck.
  unfold pair_eqb in Hcheck. simpl in Hcheck.
  apply andb_prop in Hcheck as [Ha Hp].
  split; apply N.eqb_eq; assumption.
Qed.

Lemma build_urat_set_command_injective_witness :
  pointer (mm_ublox_build_urat_set_command 6 4) = Some "+URAT=1,2"
  ∧ ∀ allowed preferred,
      pointer (mm_ublox_build_urat_set_command allowed preferred) = Some "+URAT=1,2" →
      6 = allowed ∧ 4 = preferred.
Proof.
  split; [reflexivity|]. intros allowed preferred Hy.
  apply (build_urat_set_command_injective 6 4 allowed preferred "+URAT=1,2");
    [reflexivity|exact Hy].
Defined.

(** ** The mode for ANY *)

Lemma count_bits_set_zero (mode : MMModemMode) :
  mm_count_bits_set mode = 0 ↔ mode = 0.
Proof.
  destruct mode as [|p]; simpl; [done|].
  pose proof (count_bits_positive_ge_1 p). split; [lia|discriminate].
Qed.

Lemma modem_mode_any_step_eq (any : MMModemMode) (bits : guint)
      (c : MMModemModeCombination) :
  modem_mode_any_step (any, bits) c =
  if preferred c =? MM_MODEM_MODE_NONE then (any, bits)
  else if bits <? mm_count_bits_set (allowed c)
       then (allowed c, mm_count_bits_set (allowed c))
       else (any, bits).
Proof. reflexivity. Qed.

Lemma modem_mode_any_loop (combinations : list MMModemModeCombination) :
  ∀ init : MMModemMode * guint, init.2 = mm_count_bits_set init.1 →
    let r := foldl modem_mode_any_step init combinations in
    r.2 = mm_count_bits_set r.1
    ∧ init.2 <= r.2
    ∧ (∀ c, c ∈ combinations → preferred c ≠ MM_MODEM_MODE_NONE →
            mm_count_bits_set (allowed c) <= r.2)
    ∧ (r = init
       ∨ ∃ c, c ∈ combinations ∧ preferred c ≠ MM_MODEM_MODE_NONE ∧ r.1 = allowed c).
Proof.
  induction combinations as [|c rest IH]; intros [any bits] Hbits; cbn [foldl];
    cbn [fst snd] in *.
  - cbv zeta. simpl. split; [exact Hbits|]. split; [lia|]. split; [|left; reflexivity].
    intros c Hin. by apply elem_of_nil in Hin.
  - rewrite modem_mode_any_step_eq.
    destruct (N.eqb_spec (preferred c) MM_MODEM_MODE_NONE) as [Hnone|Hpref]; cbv beta iota.
    + destruct (IH (any, bits) Hbits) as (H1 & H2 & H3 & H4). cbv zeta.
      split; [exact H1|]. split; [exact H2|]. split.
      * intros c' Hin Hp. apply elem_of_cons in Hin as [->|Hin]; [contradiction|].
        apply H3; assumption.
      * destruct H4 as [?|(c' & ? & ? & ?)]; [left; assumption|].
        right. exists c'. split; [apply elem_of_cons; right; assumption|done].
    + cbv zeta.
      destruct (N.ltb_spec bits (mm_count_bits_set (allowed c))) as [Hlt|Hge]; cbv beta iota.
      * destruct (IH (allowed c, mm_count_bits_set (allowed c)) eq_refl)
          as (H1 & H2 & H3 & H4). cbv zeta in *. cbn [fst snd] in H2.
        split; [exact H1|].
        split; [exact (N.le_trans _ _ _ (N.lt_le_incl _ _ Hlt) H2)|]. split.
        -- intros c' Hin Hp. apply elem_of_cons in Hin as [->|Hin]; [exact H2|].
           apply H3; assumption.
        -- right. destruct H4 as [Heq|(c' & ? & ? & ?)].
           ++ exists c. split; [apply list_elem_of_here|]. split; [assumption|].
              exact (f_equal fst Heq).
           ++ exists c'. split; [apply elem_of_cons; right; assumption|done].
      * destruct (IH (any, bits) Hbits) as (H1 & H2 & H3 & H4). cbv zeta in *.
        cbn [fst snd] in H2.
        split; [exact H1|]. split; [exact H2|]. split.
        -- intros c' Hin Hp.
           apply elem_of_cons in Hin as [->|Hin]; [exact (N.le_trans _ _ _ Hge H2)|].
           apply H3; assumption.
        -- destruct H4 as [?|(c' & ? & ? & ?)]; [left; assumption|].
           right. exists c'. split; [apply elem_of_cons; right; assumption|done].
Qed.

(** X9: when the assertion holds, the mode returned for ANY is the allowed
    mask of a combination of the array that has a preferred mode, and no
    combination with a preferred mode allows more modes than it. *)
Theorem get_modem_mode_any_result (combinations : list MMModemModeCombination)
        (any : MMModemMode) :
  mm_ublox_get_modem_mode_any combinations = Some any →
  any ≠ MM_MODEM_MODE_NONE
  ∧ (∃ c, c ∈ combinations ∧ preferred c ≠ MM_MODEM_MODE_NONE ∧ allowed c = any)
  ∧ ∀ c, c ∈ combinations → preferred c ≠ MM_MODEM_MODE_NONE →
         mm_count_bits_set (allowed c) <= mm_count_bits_set any.
Proof.
  unfold mm_ublox_get_modem_mode_any.
  match goal with
  | |- context [foldl modem_mode_any_step ?init combinations] =>
      pose proof (modem_mode_any_loop combinations init eq_refl) as Hloop;
      cbv zeta in Hloop;
      destruct (foldl modem_mode_any_step init combinations) as [any' bits']
  end.
  cbn [fst snd] in Hloop. destruct Hloop as (H1 & _ & H3 & H4).
  destruct (N.eqb_spec any' MM_MODEM_MODE_NONE) as [|Hne]; [discriminate|].
  intros [= <-]. split; [exact Hne|]. split.
  - destruct H4 as [Heq|(c & ? & ? & ->)];
      [apply (f_equal fst) in Heq; simpl in Heq; congruence|].
    exists c. done.
  - intros c Hin Hp. rewrite <- H1. apply H3; assumption.
Qed.

Lemma get_modem_mode_any_result_witness :
  mm_ublox_get_modem_mode_any [mkComb 6 0; mkComb 6 2; mkComb 14 0; mkComb 14 8] = Some 14
  ∧ ∃ c, c ∈ [mkComb 6 0; mkComb 6 2; mkComb 14 0; mkComb 14 8]
         ∧ preferred c ≠ MM_MODEM_MODE_NONE ∧ allowed c = 14.
Proof.
  split; [reflexivity|].
  apply (get_modem_mode_any_result [mkComb 6 0; mkComb 6 2; mkComb 14 0; mkComb 14 8] 14).
  reflexivity.
Defined.

(** X10: the assertion of [mm_ublox_get_modem_mode_any] fails exactly on the
    arrays in which every combination lacks a preferred mode or allows no
    mode at all. *)
Theorem get_modem_mode_any_fails_iff (combinations : list MMModemModeCombination) :
  mm_ublox_get_modem_mode_any combinations = None
  ↔ Forall (λ c, preferred c = MM_MODEM_MODE_NONE ∨ allowed c = MM_MODEM_MODE_NONE)
           combinations.
Proof.
  unfold mm_ublox_get_modem_mode_any.
  match goal with
  | |- context [foldl modem_mode_any_step ?init combinations] =>
      pose proof (modem_mode_any_loop combinations init eq_refl) as Hloop;
      cbv zeta in Hloop;
      destruct (foldl modem_mode_any_step init combinations) as [any' bits']
  end.
  cbn [fst snd] in Hloop. destruct Hloop as (H1 & _ & H3 & H4).
  destruct (N.eqb_spec any' MM_MODEM_MODE_NONE) as [->|Hne].
  - split; [intros _|reflexivity]. apply Forall_forall. intros c Hin.
    destruct (N.eq_dec (preferred c) MM_MODEM_MODE_NONE) as [|Hp]; [left; assumption|].
    right. apply count_bits_set_zero. specialize (H3 c Hin Hp).
    rewrite H1 in H3. change (mm_count_bits_set MM_MODEM_MODE_NONE) with 0 in H3. lia.
  - split; [discriminate|]. intros Hall. exfalso.
    destruct H4 as [Heq|(c & Hin & Hp & Hc)];
      [apply (f_equal fst) in Heq; simpl in Heq; congruence|].
    rewrite Forall_forall in Hall. destruct (Hall c Hin) as [?|Hz]; [contradiction|].
    congruence.
Qed.

(** ** The array of the URAT=? parser *)

Lemma preferred_loop_expected (mask : MMModemMode) (preferred_values : list guint) :
  ∀ combinations,
    urat_test_preferred_loop mask preferred_values combinations
    = combinations ++ preferred_combinations mask preferred_values.
Proof.
  unfold urat_test_preferred_loop, preferred_combinations.
  induction preferred_values as [|pv rest IH]; intros combinations; cbn [foldl flat_map].
  - rewrite app_nil_r. reflexivity.
  - rewrite IH, N_ublox_combinations_7. cbn [allowed preferred].
    destruct (N.leb_spec 7 pv) as [Hge|Hlt].
    + destruct (N.ltb_spec pv 7); [lia|]. reflexivity.
    + destruct (N.ltb_spec pv 7); [|lia]. cbn [andb].
      destruct (mm_count_bits_set (ublox_combination pv) =? 1); cbn [negb andb];
        [|reflexivity].
      destruct (N.land mask (ublox_combination pv) =? 0); cbn [negb];
        [reflexivity|].
      rewrite <- app_assoc. reflexivity.
Qed.

Lemma selected_loop_expected (selected_values : list guint)
      (preferred_values : option (list guint)) :
  ∀ combinations,
    urat_test_selected_loop selected_values preferred_values combinations
    = combinations ++ expected_combinations selected_values preferred_values.
Proof.
  unfold expected_combinations.
  induction selected_values as [|sv rest IH]; intros combinations.
  - cbn [flat_map]. rewrite app_nil_r. reflexivity.
  - rewrite selected_loop_step, IH. cbn [flat_map].
    destruct (7 <=? sv); [reflexivity|]. cbv zeta.
    destruct (mm_count_bits_set (ublox_combination sv) =? 1).
    + rewrite <- app_assoc. reflexivity.
    + destruct preferred_values as [pvs|].
      * rewrite preferred_loop_expected, <- !app_assoc. reflexivity.
      * rewrite <- app_assoc. reflexivity.
Qed.

Lemma expected_combinations_nil (selected_values : list guint)
      (preferred_values : option (list guint)) :
  expected_combinations selected_values preferred_values = []
  ↔ Forall (λ v, 7 <= v) selected_values.
Proof.
  unfold expected_combinations.
  induction selected_values as [|sv rest IH]; cbn [flat_map].
  - split; [intros _; apply Forall_nil_2|reflexivity].
  - rewrite Forall_cons. destruct (N.leb_spec 7 sv) as [Hge|Hlt].
    + rewrite app_nil_l, IH. tauto.
    + split; [discriminate|intros [? _]; lia].
Qed.

Section UratTestArray.
Context `{MMHelpers}.

(** X11: the array that the URAT=? parser returns is, in the order of the
    selected values and with their repetitions, for each selected value
    below 7 the combination without a preferred mode followed, unless its
    mask is a single mode or there is no preferred array, by one combination
    for each preferred value below 7 that names a single mode shared with
    the mask; values of 7 and more are passed over. *)
Theorem urat_test_response_array (response : string)
        (combinations : list MMModemModeCombination) :
  pointer (mm_ublox_parse_urat_test_response response) = Some combinations →
  ∃ selected_values,
    pointer (mm_parse_uint_list (urat_test_split response !! 0%nat)) = Some selected_values
    ∧ combinations
      = expected_combinations
          selected_values
          (pointer (mm_parse_uint_list (urat_test_split response !! 1%nat))).
Proof.
  intros Hret.
  destruct (urat_test_returned _ _ Hret) as (selected_values & Hsel & -> & _ & _).
  exists selected_values. split; [exact Hsel|].
  rewrite selected_loop_expected. reflexivity.
Qed.

(** X12: the URAT=? parser returns an array exactly when the response has
    one or two groups, the selected group is read without error into an
    array, the preferred group is read without error, and some selected
    value is below 7. *)
Theorem urat_test_response_succeeds_iff (response : string) :
  let split := urat_test_split response in
  let selected := mm_parse_uint_list (split !! 0%nat) in
  let preferred_array := mm_parse_uint_list (split !! 1%nat) in
  is_Some (pointer (mm_ublox_parse_urat_test_response response))
  ↔ (1 <= List.length split <= 2)%nat
    ∧ perror selected = None
    ∧ perror preferred_array = None
    ∧ ∃ selected_values,
        pointer selected = Some selected_values
        ∧ ∃ v, v ∈ selected_values ∧ v < 7.
Proof.
  cbv zeta. unfold mm_ublox_parse_urat_test_response, urat_test_split.
  set (split := mm_split_string_groups (mm_strip_tag response "+URAT:")).
  destruct (Nat.ltb_spec 2 (List.length split)) as [Hlong|Hlen2]; cbn [orb].
  { cbn [pointer]. split; [intros [? [=]]|intros [? _]; lia]. }
  destruct (Nat.ltb_spec (List.length split) 1) as [Hshort|Hlen1].
  { cbn [pointer]. split; [intros [? [=]]|intros [? _]; lia]. }
  destruct (perror (mm_parse_uint_list (split !! 0%nat))) as [e|].
  { cbn [pointer]. split; [intros [? [=]]|intros (_ & [=] & _)]. }
  destruct (pointer (mm_parse_uint_list (split !! 0%nat))) as [selected_values|].
  2:{ cbn [pointer]. split; [intros [? [=]]|intros (_ & _ & _ & ? & [=] & _)]. }
  destruct (perror (mm_parse_uint_list (split !! 1%nat))) as [e|].
  { cbn [pointer]. split; [intros [? [=]]|intros (_ & _ & [=] & _)]. }
  rewrite selected_loop_expected, app_nil_l.
  destruct (expected_combinations selected_values _) as [|c rest] eqn:Hexp; simpl.
  - apply expected_combinations_nil in Hexp. rewrite Forall_forall in Hexp.
    split; [intros [? [=]]|].
    intros (_ & _ & _ & vals & [= <-] & v & Hin & Hv). specialize (Hexp v Hin). lia.
  - split; [intros _|eauto].
    split; [lia|]. split; [reflexivity|]. split; [reflexivity|].
    exists selected_values. split; [reflexivity|].
    destruct (decide (Forall (λ v, 7 <= v) selected_values)) as [Hall|Hnot].
    + apply (expected_combinations_nil selected_values
               (pointer (mm_parse_uint_list (split !! 1%nat)))) in Hall. congruence.
    + apply not_Forall_Exists in Hnot; [|intros v; apply _].
      apply Exists_exists in Hnot as (v & Hin & Hv). exists v.
      split; [exact Hin|]. simpl in Hv. lia.
Qed.

End UratTestArray.

Section UratTestErrors.
Context `{MMHelpers}.

(** X13: the URAT=? parser returns NULL exactly when it sets an error, and
    the error is either one of its own, which are all MM_CORE_ERROR_FAILED,
    or the error that the list helper reported for the selected or the
    preferred group, handed on as it is. *)
Theorem urat_test_response_errors (response : string) :
  let r := mm_ublox_parse_urat_test_response response in
  let split := urat_test_split response in
  (pointer r = None ↔ is_Some (perror r))
  ∧ ∀ e, perror r = Some e →
         is_core_error MM_CORE_ERROR_FAILED e
         ∨ perror (mm_parse_uint_list (split !! 0%nat)) = Some e
         ∨ perror (mm_parse_uint_list (split !! 1%nat)) = Some e.
Proof.
  cbv zeta. unfold mm_ublox_parse_urat_test_response, urat_test_split.
  set (split := mm_split_string_groups (mm_strip_tag response "+URAT:")).
  destruct (_ || _)%bool.
  { simpl. split; [split; eauto|]. intros e [= <-]. left. split; reflexivity. }
  destruct (perror (mm_parse_uint_list (split !! 0%nat))) as [e0|].
  { simpl. split; [split; eauto|]. intros e [= <-]. right. left. reflexivity. }
  destruct (pointer (mm_parse_uint_list (split !! 0%nat))) as [selected_values|].
  2:{ simpl. split; [split; eauto|]. intros e [= <-]. left. split; reflexivity. }
  destruct (perror (mm_parse_uint_list (split !! 1%nat))) as [e1|].
  { simpl. split; [split; eauto|]. intros e [= <-]. right. right. reflexivity. }
  destruct (urat_test_selected_loop _ _ _) as [|c rest]; simpl.
  - split; [split; eauto|]. intros e [= <-]. left. split; reflexivity.
  - split; [split; [discriminate|intros [? [=]]]|]. intros e [=].
Qed.

(** X14: on an array that the URAT=? parser returned, the assertion of
    [mm_ublox_get_modem_mode_any] holds exactly when the array has a
    combination with a preferred mode. *)
Theorem urat_test_response_any_iff (response : string)
        (combinations : list MMModemModeCombination) :
  pointer (mm_ublox_parse_urat_test_response response) = Some combinations →
  (is_Some (mm_ublox_get_modem_mode_any combinations)
   ↔ ∃ c, c ∈ combinations ∧ preferred c ≠ MM_MODEM_MODE_NONE).
Proof.
  intros Hret.
  destruct (urat_test_returned _ _ Hret) as (selected_values & _ & Heq & _ & _).
  assert (Forall good_combination combinations) as Hgood
      by (rewrite Heq; apply selected_loop_good, Forall_nil_2).
  clear Heq. rewrite Forall_forall in Hgood.
  unfold mm_ublox_get_modem_mode_any.
  match goal with
  | |- context [foldl modem_mode_any_step ?init combinations] =>
      pose proof (modem_mode_any_loop combinations init eq_refl) as Hloop;
      cbv zeta in Hloop;
      destruct (foldl modem_mode_any_step init combinations) as [any' bits']
  end.
  cbn [fst snd] in Hloop. destruct Hloop as (H1 & _ & H3 & H4).
  destruct (N.eqb_spec any' MM_MODEM_MODE_NONE) as [->|Hne].
  - split; [intros [? [=]]|]. intros (c & Hin & Hp). exfalso.
    specialize (H3 c Hin Hp). rewrite H1 in H3.
    change (mm_count_bits_set MM_MODEM_MODE_NONE) with 0 in H3.
    assert (mm_count_bits_set (allowed c) = 0) as Hz by lia.
    apply (proj1 (count_bits_set_zero _)) in Hz.
    destruct (Hgood c Hin) as [Hin_table _]. rewrite Hz in Hin_table.
    apply in_ublox_combinations in Hin_table. lia.
  - split; [intros _|eauto].
    destruct H4 as [Heq|(c & Hin & Hp & _)];
      [apply (f_equal fst) in Heq; simpl in Heq; congruence|].
    exists c. done.
Qed.

End UratTestErrors.

(** ** Set, then read *)

Lemma single_subset_in_table (allowed preferred : MMModemMode) :
  allowed ∈ ublox_combinations → single_mode preferred → mode_subset preferred allowed →
  preferred = 2 ∨ preferred = 4 ∨ preferred = 8.
Proof.
  intros Ha Hs Hsub. apply count_bits_set_single in Hs. unfold mode_subset in Hsub.
  pose proof (N.land_le_r preferred allowed) as Hle. rewrite Hsub in Hle.
  assert (preferred <= 14) as Hb
      by (destruct (in_ublox_combinations allowed Ha)
            as [->|[->|[->|[->|[->|[->| ->]]]]]]; lia).
  assert (preferred = 0 ∨ preferred = 1 ∨ preferred = 2 ∨ preferred = 3 ∨ preferred = 4
          ∨ preferred = 5 ∨ preferred = 6 ∨ preferred = 7 ∨ preferred = 8 ∨ preferred = 9
          ∨ preferred = 10 ∨ preferred = 11 ∨ preferred = 12 ∨ preferred = 13
          ∨ preferred = 14) as Hcases by lia.
  destruct Hcases as [->|[->|[->|[->|[->|[->|[->|[->|[->|[->|[->|[->|[->|[->| ->]]]]]]]]]]]]]];
    vm_compute in Hs; try discriminate; try tauto.
  exfalso.
  destruct (in_ublox_combinations allowed Ha) as [->|[->|[->|[->|[->|[->| ->]]]]]];
    vm_compute in Hsub; discriminate.
Qed.

Section SetThenRead.
Context `{MMHelpers}.
Hypothesis Hreads : reads_urat_values.

Local Ltac good_pair i :=
  first [ urat_pair_at (urat_read_text_two Hreads) i 0
        | urat_pair_at (urat_read_text_two Hreads) i 2
        | urat_pair_at (urat_read_text_two Hreads) i 3 ].

Lemma good_pair_round_trip (allowed preferred : MMModemMode) :
  allowed ∈ ublox_combinations →
  preferred = MM_MODEM_MODE_NONE
  ∨ (single_mode preferred ∧ mode_subset preferred allowed) →
  ∃ (i : guint) (j : option guint),
    ublox_combinations !! N.to_nat i = Some allowed
    ∧ match j with
      | None => preferred = MM_MODEM_MODE_NONE
      | Some j => ublox_combinations !! N.to_nat j = Some preferred
      end
    ∧ mm_ublox_build_urat_set_command allowed preferred
      = mkPtrRet (Some (urat_set_command_text i j)) None
    ∧ mm_ublox_parse_urat_read_response (urat_read_response_text i j)
      = ret_true (allowed, preferred).
Proof.
  intros Hin [->|(Hs & Hsub)].
  - destruct (in_ublox_combinations allowed Hin) as [->|[->|[->|[->|[->|[->| ->]]]]]];
      [exists 0|exists 1|exists 2|exists 3|exists 4|exists 5|exists 6];
      exists None; (split; [reflexivity|]); (split; [reflexivity|]);
      (split; [vm_compute; reflexivity|]);
      rewrite (urat_read_text_one Hreads) by lia; reflexivity.
  - pose proof (single_subset_in_table allowed preferred Hin Hs Hsub) as Hp.
    unfold mode_subset in Hsub.
    destruct (in_ublox_combinations allowed Hin) as [->|[->|[->|[->|[->|[->| ->]]]]]];
      destruct Hp as [->|[->| ->]];
      try (vm_compute in Hsub; discriminate);
      first [ good_pair 0 | good_pair 1 | good_pair 2 | good_pair 3
            | good_pair 4 | good_pair 5 | good_pair 6 ].
Qed.

(** X15: every combination of an array that the URAT=? parser returned can
    be set and read back: the builder turns it into a command +URAT=i or
    +URAT=i,j, and the URAT? parser reads the same allowed and preferred
    masks from the response +URAT: i or +URAT: i,j. *)
Theorem urat_test_combinations_round_trip (response : string)
        (combinations : list MMModemModeCombination) (c : MMModemModeCombination) :
  pointer (mm_ublox_parse_urat_test_response response) = Some combinations →
  c ∈ combinations →
  ∃ (i : guint) (j : option guint),
    mm_ublox_build_urat_set_command (allowed c) (preferred c)
    = mkPtrRet (Some (urat_set_command_text i j)) None
    ∧ mm_ublox_parse_urat_read_response (urat_read_response_text i j)
      = ret_true (allowed c, preferred c).
Proof.
  intros Hret Hin.
  destruct (urat_test_returned _ _ Hret) as (selected_values & _ & Heq & _ & _).
  assert (Forall good_combination combinations) as Hgood
      by (rewrite Heq; apply selected_loop_good, Forall_nil_2).
  rewrite Forall_forall in Hgood. destruct (Hgood c Hin) as [Ha Hp].
  destruct (good_pair_round_trip (allowed c) (preferred c) Ha Hp)
    as (i & j & _ & _ & Hbuild & Hread).
  exists i, j. split; assumption.
Qed.

(** the response +URAT: i,j for two values below 7, by the table entries *)
Lemma urat_read_text_pair (i j : guint) :
  i < 7 → j < 7 →
  mm_ublox_parse_urat_read_response (urat_read_response_text i (Some j)) =
  if negb (mm_count_bits_set (ublox_combination j) =? 1) then
    ret_false (Some (core_error MM_CORE_ERROR_FAILED
                       "AcT preferred value should be a single AcT"))
  else if N.land (ublox_combination i) (ublox_combination j) =? 0 then
    ret_false (Some (core_error MM_CORE_ERROR_FAILED
                       "AcT preferred value not a subset of the allowed value"))
  else ret_true (ublox_combination i, ublox_combination j).
Proof.
  intros Hi Hj. destruct Hreads as [Hsome _].
  assert (g_regex_match_full urat_regex (urat_read_response_text i (Some j))
          = Some (<[ 2%nat := pretty j ]> {[ 1%nat := pretty i ]})) as Hm
      by (destruct (below_7_cases i Hi) as [->|[->|[->|[->|[->|[->| ->]]]]]];
          destruct (below_7_cases j Hj) as [->|[->|[->|[->|[->|[->| ->]]]]]];
          vm_compute; reflexivity).
  rewrite (urat_read_matched _ _ Hm).
  rewrite (Hsome _ 1%nat i Hi)
    by (rewrite lookup_insert_ne by lia; apply lookup_singleton_eq).
  rewrite (Hsome _ 2%nat j Hj) by apply lookup_insert_eq.
  destruct (N.leb_spec 7 i); [lia|]. destruct (N.leb_spec 7 j); [lia|]. reflexivity.
Qed.

(** X16: for any two table positions i and j the builder makes the command
    +URAT=i,j out of the two entries, without a check between them, while
    the URAT? parser accepts the response +URAT: i,j only when entry j is a
    single mode within entry i, and otherwise fails with
    MM_CORE_ERROR_FAILED: the builder can ask for what the parser will not
    read back. *)
Theorem urat_build_unchecked_read_checked (i j : guint) :
  i < 7 → j < 7 →
  mm_ublox_build_urat_set_command (ublox_combination i) (ublox_combination j)
  = mkPtrRet (Some (urat_set_command_text i (Some j))) None
  ∧ let r := mm_ublox_parse_urat_read_response (urat_read_response_text i (Some j)) in
    (retval r = true
     ↔ single_mode (ublox_combination j)
       ∧ mode_subset (ublox_combination j) (ublox_combination i))
    ∧ (retval r = false → ∃ e, error r = Some e ∧ is_core_error MM_CORE_ERROR_FAILED e).
Proof.
  intros Hi Hj. split.
  - destruct (below_7_cases i Hi) as [->|[->|[->|[->|[->|[->| ->]]]]]];
      destruct (below_7_cases j Hj) as [->|[->|[->|[->|[->|[->| ->]]]]]];
      vm_compute; reflexivity.
  - cbv zeta. rewrite (urat_read_text_pair i j Hi Hj).
    destruct (N.eqb_spec (mm_count_bits_set (ublox_combination j)) 1) as [Hc|Hc]; simpl.
    2:{ split; [|intros _; eexists; split; [reflexivity|split; reflexivity]].
        split; [discriminate|]. intros [Hs _].
        apply count_bits_set_single in Hs. contradiction. }
    apply count_bits_set_single in Hc.
    destruct (N.eqb_spec (N.land (ublox_combination i) (ublox_combination j)) 0)
      as [Hl|Hl]; simpl.
    + split; [|intros _; eexists; split; [reflexivity|split; reflexivity]].
      split; [discriminate|]. intros [_ Hsub].
      exfalso. exact (mode_subset_land_nonzero _ _ Hc Hsub Hl).
    + split; [|discriminate]. split; [intros _|reflexivity].
      split; [exact Hc|]. apply single_mode_land_subset; assumption.
Qed.

End SetThenRead.

(** ** UIPADDR=N: success, error codes and what is stored *)

Section UipaddrMore.
Context `{MMHelpers}.

(** X17: the UIPADDR parser returns TRUE exactly when the response matches,
    a requested cid can be read and a requested interface name is not NULL;
    FALSE always comes with an error, MM_CORE_ERROR_INVALID_ARGS when the
    response does not match and MM_CORE_ERROR_FAILED when it matches. *)
Theorem uipaddr_response_succeeds_iff (response : string)
        (out_cid out_if_name out_ipv4_address out_ipv4_subnet
         out_ipv6_global_address out_ipv6_link_local_address : option nat)
        (mem : gmap nat cell) :
  let r := mm_ublox_parse_uipaddr_response
             response out_cid out_if_name out_ipv4_address out_ipv4_subnet
             out_ipv6_global_address out_ipv6_link_local_address mem in
  (m_retval r = true
   ↔ ∃ match_info,
       g_regex_match_full uipaddr_regex response = Some match_info
       ∧ (is_Some out_cid → is_Some (mm_get_uint_from_match_info match_info 1))
       ∧ (is_Some out_if_name →
          is_Some (mm_get_string_unquoted_from_match_info match_info 2)))
  ∧ (m_retval r = false ↔ is_Some (m_error r))
  ∧ ∀ e, m_error r = Some e →
         match g_regex_match_full uipaddr_regex response with
         | Some _ => is_core_error MM_CORE_ERROR_FAILED e
         | None => is_core_error MM_CORE_ERROR_INVALID_ARGS e
         end.
Proof.
  intros r. subst r. unfold mm_ublox_parse_uipaddr_response.
  destruct (g_regex_match_full uipaddr_regex response) as [match_info|].
  2:{ simpl. split; [split; [discriminate|intros (? & [=] & _)]|].
      split; [split; eauto|]. intros e [= <-]. split; reflexivity. }
  destruct out_cid as [pc|], (mm_get_uint_from_match_info match_info 1) as [cid|] eqn:Hcid.
  2:{ simpl. split; [|split; [split; eauto|intros e [= <-]; split; reflexivity]].
      split; [discriminate|]. intros (mi & [= <-] & Hc & _).
      rewrite Hcid in Hc. destruct (Hc ltac:(eauto)) as [? [=]]. }
  all: destruct out_if_name as [pn|];
    [destruct (mm_get_string_unquoted_from_match_info match_info 2) as [name|] eqn:Hname|].
  all: cbn -[store_if].
  all: try (split; [|split; [split; [discriminate|intros [? [=]]]|intros e [=]]];
            split; [intros _|reflexivity];
            exists match_info; split; [reflexivity|];
            rewrite ?Hcid, ?Hname; split; eauto; intros [? [=]]).
  all: split; [|split; [split; eauto|intros e [= <-]; split; reflexivity]].
  all: split; [discriminate|]; intros (mi & [= <-] & _ & Hn);
    rewrite Hname in Hn; destruct (Hn ltac:(eauto)) as [? [=]].
Qed.

(** X18: with six out pointers to six different locations, a TRUE return
    leaves in each location its own field: the cid read from the first
    group, the interface name of the second, and for the four addresses
    what the string helper gave for groups three to six, NULL included. *)
Theorem uipaddr_response_stored (response : string) (a1 a2 a3 a4 a5 a6 : nat)
        (mem : gmap nat cell) :
  NoDup [a1; a2; a3; a4; a5; a6] →
  let r := mm_ublox_parse_uipaddr_response
             response (Some a1) (Some a2) (Some a3) (Some a4) (Some a5) (Some a6) mem in
  m_retval r = true →
  ∃ match_info cid name,
    g_regex_match_full uipaddr_regex response = Some match_info
    ∧ mm_get_uint_from_match_info match_info 1 = Some cid
    ∧ mm_get_string_unquoted_from_match_info match_info 2 = Some name
    ∧ m_mem r !! a1 = Some (Cell_guint cid)
    ∧ m_mem r !! a2 = Some (Cell_string (Some name))
    ∧ m_mem r !! a3
      = Some (Cell_string (mm_get_string_unquoted_from_match_info match_info 3))
    ∧ m_mem r !! a4
      = Some (Cell_string (mm_get_string_unquoted_from_match_info match_info 4))
    ∧ m_mem r !! a5
      = Some (Cell_string (mm_get_string_unquoted_from_match_info match_info 5))
    ∧ m_mem r !! a6
      = Some (Cell_string (mm_get_string_unquoted_from_match_info match_info 6)).
Proof.
  intros Hnd r. subst r. unfold mm_ublox_parse_uipaddr_response.
  destruct (g_regex_match_full uipaddr_regex response) as [match_info|]; [|discriminate].
  destruct (mm_get_uint_from_match_info match_info 1) as [cid|] eqn:Hcid; [|discriminate].
  destruct (mm_get_string_unquoted_from_match_info match_info 2) as [name|] eqn:Hname;
    [|discriminate].
  intros _. exists match_info, cid, name.
  split; [reflexivity|]. split; [exact Hcid|]. split; [exact Hname|].
  apply NoDup_cons in Hnd as [N1 Hnd]. apply NoDup_cons in Hnd as [N2 Hnd].
  apply NoDup_cons in Hnd as [N3 Hnd]. apply NoDup_cons in Hnd as [N4 Hnd].
  apply NoDup_cons in Hnd as [N5 _].
  repeat match goal with
         | Hn : _ ∉ _ :: _ |- _ => apply not_elem_of_cons in Hn as [? Hn]
         end.
  cbn -[insert lookup]. repeat split.
  all: repeat (first [ rewrite lookup_insert_eq; reflexivity
                     | rewrite lookup_insert_ne by congruence ]).
Qed.

End UipaddrMore.

Lemma uipaddr_response_stored_witness :
  ∃ match_info cid name,
    g_regex_match_full uipaddr_regex
      ("+UIPADDR: 1," +:+ quoted "ccinet0" +:+ ",,,,") = Some match_info
    ∧ @mm_get_uint_from_match_info reference_helpers match_info 1 = Some cid
    ∧ @mm_get_string_unquoted_from_match_info reference_helpers match_info 2 = Some name
    ∧ m_mem (@mm_ublox_parse_uipaddr_response reference_helpers
               ("+UIPADDR: 1," +:+ quoted "ccinet0" +:+ ",,,,")
               (Some 1%nat) (Some 2%nat) (Some 3%nat) (Some 4%nat) (Some 5%nat)
               (Some 6%nat) ∅) !! 1%nat = Some (Cell_guint cid)
    ∧ m_mem (@mm_ublox_parse_uipaddr_response reference_helpers
               ("+UIPADDR: 1," +:+ quoted "ccinet0" +:+ ",,,,")
               (Some 1%nat) (Some 2%nat) (Some 3%nat) (Some 4%nat) (Some 5%nat)
               (Some 6%nat) ∅) !! 2%nat = Some (Cell_string (Some name)).
Proof.
  destruct (@uipaddr_response_stored reference_helpers
              ("+UIPADDR: 1," +:+ quoted "ccinet0" +:+ ",,,,")
              1%nat 2%nat 3%nat 4%nat 5%nat 6%nat ∅)
    as (match_info & cid & name & Hm & Hc & Hn & H1 & H2 & _).
  - repeat (apply NoDup_cons_2;
            [rewrite ?not_elem_of_cons; repeat split;
             first [lia|apply not_elem_of_nil]|]).
    apply NoDup_nil_2.
  - vm_compute. reflexivity.
  - exists match_info, cid, name. repeat split; assumption.
Defined.

(** ** Lines and what surrounds them *)

Lemma all_chars_app (cls : ascii → bool) (a b : string) :
  all_chars cls a = true → all_chars cls b = true → all_chars cls (a +:+ b) = true.
Proof.
  intros Ha Hb. induction a as [|c a IH]; [exact Hb|].
  simpl in Ha. apply andb_prop in Ha as [Hc Ha].
  change (String c a +:+ b) with (String c (a +:+ b)). simpl.
  rewrite Hc, (IH Ha). reflexivity.
Qed.

Lemma rmatch_group_star {A : Type} (n : nat) (cls : ascii → bool) (d rest : string)
      (caps : GMatchInfo) (k : string → GMatchInfo → option A) (x : A) :
  all_chars cls d = true → starts_with cls rest = false →
  k rest (<[n := d]> caps) = Some x →
  rmatch (Group n (Star cls)) (d +:+ rest) caps k = Some x.
Proof.
  intros Hd Hrest Hk. cbn [rmatch].
  apply greedy_run; [exact Hd|exact Hrest|].
  rewrite consumed_app. exact Hk.
Qed.

(** +UIPADDR: cid and five comma-free fields, the last up to [rest] *)
Lemma uipaddr_line (pre d f2 f3 f4 f5 f6 rest : string) :
  no_plus pre → run_of is_digit d →
  all_chars not_comma f2 = true → all_chars not_comma f3 = true →
  all_chars not_comma f4 = true → all_chars not_comma f5 = true →
  all_chars not_comma f6 = true → starts_with not_comma rest = false →
  g_regex_match_full uipaddr_regex
    (pre +:+ "+UIPADDR: " +:+ d +:+ "," +:+ f2 +:+ "," +:+ f3 +:+ "," +:+ f4
         +:+ "," +:+ f5 +:+ "," +:+ f6 +:+ rest)
  = Some (<[6%nat := f6]> (<[5%nat := f5]> (<[4%nat := f4]> (<[3%nat := f3]>
            (<[2%nat := f2]> (<[1%nat := d]> ∅)))))).
Proof.
  intros Hpre Hd H2 H3 H4 H5 H6 Hrest. unfold uipaddr_regex.
  rewrite (search_skip plus_sign) by exact Hpre.
  apply search_here. unfold match_here.
  rewrite rmatch_seq, rmatch_lit, rmatch_seq.
  apply rmatch_group_plus; [exact Hd|reflexivity|].
  rewrite rmatch_seq, rmatch_lit, rmatch_seq.
  apply rmatch_group_star; [exact H2|reflexivity|].
  rewrite rmatch_seq, rmatch_lit, rmatch_seq.
  apply rmatch_group_star; [exact H3|reflexivity|].
  rewrite rmatch_seq, rmatch_lit, rmatch_seq.
  apply rmatch_group_star; [exact H4|reflexivity|].
  rewrite rmatch_seq, rmatch_lit, rmatch_seq.
  apply rmatch_group_star; [exact H5|reflexivity|].
  rewrite rmatch_seq, rmatch_lit, rmatch_seq.
  apply rmatch_group_star; [exact H6|exact Hrest|].
  apply opt_crlf_end.
Qed.

(** X19: in a +UIPADDR line that ends the response with CR LF, the sixth
    group is the last field together with the CR LF: the group takes every
    character that is not a comma, so the optional CR LF of the pattern
    never gets them, and the string helper is handed a link-local address
    that ends in CR LF. *)
Theorem uipaddr_last_group_keeps_crlf (pre d f2 f3 f4 f5 f6 : string) :
  no_plus pre → run_of is_digit d →
  all_chars not_comma f2 = true → all_chars not_comma f3 = true →
  all_chars not_comma f4 = true → all_chars not_comma f5 = true →
  all_chars not_comma f6 = true →
  ∃ match_info,
    g_regex_match_full uipaddr_regex
      (pre +:+ "+UIPADDR: " +:+ d +:+ "," +:+ f2 +:+ "," +:+ f3 +:+ "," +:+ f4
           +:+ "," +:+ f5 +:+ "," +:+ f6 +:+ CRLF) = Some match_info
    ∧ g_match_info_fetch match_info 1 = d
    ∧ g_match_info_fetch match_info 5 = f5
    ∧ g_match_info_fetch match_info 6 = f6 +:+ CRLF.
Proof.
  intros Hpre Hd H2 H3 H4 H5 H6.
  pose proof (uipaddr_line pre d f2 f3 f4 f5 (f6 +:+ CRLF) "" Hpre Hd H2 H3 H4 H5
                (all_chars_app not_comma f6 CRLF H6 eq_refl) eq_refl) as Hm.
  rewrite string_app_empty in Hm.
  eexists. split; [exact Hm|].
  unfold g_match_info_fetch.
  split; [|split].
  - rewrite !lookup_insert_ne by lia. rewrite lookup_insert_eq. reflexivity.
  - rewrite !lookup_insert_ne by lia. rewrite lookup_insert_eq. reflexivity.
  - rewrite lookup_insert_eq. reflexivity.
Qed.

Lemma uipaddr_last_group_keeps_crlf_witness :
  ∃ match_info,
    g_regex_match_full uipaddr_regex
      ("" +:+ "+UIPADDR: " +:+ "2" +:+ "," +:+ "ccinet1" +:+ "," +:+ "" +:+ "," +:+ ""
          +:+ "," +:+ "2001::2/64" +:+ "," +:+ "FE80::2/64" +:+ CRLF) = Some match_info
    ∧ g_match_info_fetch match_info 1 = "2"
    ∧ g_match_info_fetch match_info 5 = "2001::2/64"
    ∧ g_match_info_fetch match_info 6 = "FE80::2/64" +:+ CRLF.
Proof.
  apply (uipaddr_last_group_keeps_crlf "" "2" "ccinet1" "" "" "2001::2/64" "FE80::2/64");
    try reflexivity.
  split; [discriminate|reflexivity].
Defined.

Section Framing.
Context `{MMHelpers}.

(** X20: the CFUN? parser does not care about the second number: a line
    +CFUN: v,n, after any text without a plus sign and before anything that
    is not a digit, gives exactly what the bare line +CFUN: v gives. *)
Theorem cfun_second_number_ignored (pre dv dn rest : string) :
  no_plus pre → run_of is_digit dv → run_of is_digit dn →
  starts_with is_digit rest = false →
  mm_ublox_parse_cfun_response (pre +:+ "+CFUN: " +:+ dv +:+ "," +:+ dn +:+ rest)
  = mm_ublox_parse_cfun_response ("+CFUN: " +:+ dv).
Proof.
  intros Hpre Hdv Hdn Hrest.
  pose proof (cfun_line_two pre dv dn rest Hpre Hdv Hdn Hrest) as Hfull.
  pose proof (cfun_line_one "" dv "" eq_refl Hdv eq_refl eq_refl) as Hbare.
  rewrite string_app_empty in Hbare. change ("" +:+ "+CFUN: " +:+ dv) with ("+CFUN: " +:+ dv) in Hbare.
  unfold mm_ublox_parse_cfun_response. rewrite Hfull, Hbare.
  destruct (mm_get_uint_from_match_info _ 1) as [v|]; [|reflexivity].
  destruct (cfun_state_of_value v); reflexivity.
Qed.

(** X21: the URAT? parser reads a line +URAT: a,p wherever it stands: text
    without a plus sign before it and anything that does not start with a
    digit after it change nothing in what is returned. *)
Theorem urat_read_line_framing (pre da dp rest : string) :
  no_plus pre → run_of is_digit da → run_of is_digit dp →
  starts_with is_digit rest = false →
  mm_ublox_parse_urat_read_response (pre +:+ "+URAT: " +:+ da +:+ "," +:+ dp +:+ rest)
  = mm_ublox_parse_urat_read_response ("+URAT: " +:+ da +:+ "," +:+ dp).
Proof.
  intros Hpre Hda Hdp Hrest.
  pose proof (urat_line_two pre da dp rest Hpre Hda Hdp Hrest) as Hfull.
  pose proof (urat_line_two "" da dp "" eq_refl Hda Hdp eq_refl) as Hbare.
  rewrite string_app_empty in Hbare.
  change ("" +:+ "+URAT: " +:+ da +:+ "," +:+ dp) with ("+URAT: " +:+ da +:+ "," +:+ dp) in Hbare.
  rewrite (urat_read_matched _ _ Hfull), (urat_read_matched _ _ Hbare). reflexivity.
Qed.

(** X22: the UPINCNT parser reads the first line +UPINCNT: p1,p2,p3,p4 of a
    response wherever it stands: text without a plus sign before it and
    anything that does not start with a digit after it change nothing in
    what is returned. *)
Theorem upincnt_line_framing (pre d1 d2 d3 d4 rest : string) :
  no_plus pre →
  run_of is_digit d1 → run_of is_digit d2 → run_of is_digit d3 → run_of is_digit d4 →
  starts_with is_digit rest = false →
  mm_ublox_parse_upincnt_response
    (pre +:+ "+UPINCNT: " +:+ d1 +:+ "," +:+ d2 +:+ "," +:+ d3 +:+ "," +:+ d4 +:+ rest)
  = mm_ublox_parse_upincnt_response
      ("+UPINCNT: " +:+ d1 +:+ "," +:+ d2 +:+ "," +:+ d3 +:+ "," +:+ d4).
Proof.
  intros Hpre H1 H2 H3 H4 Hrest.
  pose proof (upincnt_line pre d1 d2 d3 d4 rest Hpre H1 H2 H3 H4 Hrest) as Hfull.
  pose proof (upincnt_line "" d1 d2 d3 d4 "" eq_refl H1 H2 H3 H4 eq_refl) as Hbare.
  rewrite string_app_empty in Hbare.
  change ("" +:+ ?x) with x in Hbare.
  unfold mm_ublox_parse_upincnt_response. rewrite Hfull, Hbare. reflexivity.
Qed.

End Framing.

(** ** The statements above at concrete responses *)

Lemma urat_test_response_array_witness :
  ∃ selected_values,
    pointer (@mm_parse_uint_list reference_helpers
               (@urat_test_split reference_helpers "+URAT: (1,9,0,1),(2,6)" !! 0%nat))
    = Some selected_values
    ∧ [mkComb 6 0; mkComb 6 4; mkComb 2 0; mkComb 6 0; mkComb 6 4]
      = expected_combinations
          selected_values
          (pointer (@mm_parse_uint_list reference_helpers
                      (@urat_test_split reference_helpers "+URAT: (1,9,0,1),(2,6)"
                         !! 1%nat))).
Proof.
  apply (@urat_test_response_array reference_helpers "+URAT: (1,9,0,1),(2,6)").
  vm_compute. reflexivity.
Defined.

Lemma urat_test_response_any_iff_witness :
  is_Some (mm_ublox_get_modem_mode_any
             [mkComb 6 0; mkComb 6 4; mkComb 2 0; mkComb 6 0; mkComb 6 4])
  ↔ ∃ c, c ∈ [mkComb 6 0; mkComb 6 4; mkComb 2 0; mkComb 6 0; mkComb 6 4]
         ∧ preferred c ≠ MM_MODEM_MODE_NONE.
Proof.
  apply (@urat_test_response_any_iff reference_helpers "+URAT: (1,9,0,1),(2,6)").
  vm_compute. reflexivity.
Defined.

Lemma urat_test_combinations_round_trip_witness :
  ∃ (i : guint) (j : option guint),
    mm_ublox_build_urat_set_command 6 4
    = mkPtrRet (Some (urat_set_command_text i j)) None
    ∧ @mm_ublox_parse_urat_read_response reference_helpers (urat_read_response_text i j)
      = ret_true (6, 4).
Proof.
  apply (@urat_test_combinations_round_trip reference_helpers
           reference_helpers_read_urat_values "+URAT: (1,9,0,1),(2,6)"
           [mkComb 6 0; mkComb 6 4; mkComb 2 0; mkComb 6 0; mkComb 6 4] (mkComb 6 4)).
  - vm_compute. reflexivity.
  - apply elem_of_cons. right. apply list_elem_of_here.
Defined.

Lemma urat_build_unchecked_read_checked_witness :
  mm_ublox_build_urat_set_command (ublox_combination 0) (ublox_combination 6)
  = mkPtrRet (Some (urat_set_command_text 0 (Some 6))) None
  ∧ let r := @mm_ublox_parse_urat_read_response
               reference_helpers (urat_read_response_text 0 (Some 6)) in
    (retval r = true
     ↔ single_mode (ublox_combination 6)
       ∧ mode_subset (ublox_combination 6) (ublox_combination 0))
    ∧ (retval r = false → ∃ e, error r = Some e ∧ is_core_error MM_CORE_ERROR_FAILED e).
Proof.
  apply (@urat_build_unchecked_read_checked reference_helpers
           reference_helpers_read_urat_values 0 6); lia.
Defined.

Lemma cfun_second_number_ignored_witness :
  @mm_ublox_parse_cfun_response reference_helpers
    (CRLF +:+ "+CFUN: " +:+ "1" +:+ "," +:+ "0" +:+ CRLF)
  = @mm_ublox_parse_cfun_response reference_helpers ("+CFUN: " +:+ "1").
Proof.
  apply (@cfun_second_number_ignored reference_helpers CRLF "1" "0" CRLF);
    first [reflexivity | split; [discriminate|reflexivity]].
Defined.

Lemma urat_read_line_framing_witness :
  @mm_ublox_parse_urat_read_response reference_helpers
    (CRLF +:+ "+URAT: " +:+ "4" +:+ "," +:+ "3" +:+ CRLF)
  = @mm_ublox_parse_urat_read_response reference_helpers ("+URAT: " +:+ "4" +:+ "," +:+ "3").
Proof.
  apply (@urat_read_line_framing reference_helpers CRLF "4" "3" CRLF);
    first [reflexivity | split; [discriminate|reflexivity]].
Defined.

Lemma upincnt_line_framing_witness :
  @mm_ublox_parse_upincnt_response reference_helpers
    (CRLF +:+ "+UPINCNT: " +:+ "3" +:+ "," +:+ "3" +:+ "," +:+ "10" +:+ "," +:+ "10" +:+ CRLF)
  = @mm_ublox_parse_upincnt_response reference_helpers
      ("+UPINCNT: " +:+ "3" +:+ "," +:+ "3" +:+ "," +:+ "10" +:+ "," +:+ "10").
Proof.
  apply (@upincnt_line_framing reference_helpers CRLF "3" "3" "10" "10" CRLF);
    first [reflexivity | split; [discriminate|reflexivity]].
Defined.
